(** * Integration-test harness of rust-hypervisor-firmware (src/integration.rs)

    A shallow embedding of the boot-test harness: network identity
    generation ([GuestNetworkConfig::new]), the two cloud-init seeders,
    tap set-up and tear-down, the retrying SSH client [ssh_command] and the
    orchestrator [test_boot].

    Effects are modelled as a writer/panic monad: a computation returns
    [Some v] (normal return) or [None] (a Rust panic: a failed [unwrap],
    [expect] or [assert!]), together with the trace of externally visible
    events it emitted.  Everything the process learns from the outside
    world (file contents, exit statuses, network behaviour, randomness)
    is read from a [World] record. *)

From Stdlib Require Import List Arith ZArith Lia Bool Ascii String.
Import ListNotations.
Open Scope list_scope.

(** ** Strings

    Rust [String]s are modelled as lists of characters. *)

Definition rstr := list ascii.

Definition lit (s : string) : rstr := list_ascii_of_string s.

Definition rstr_eqb (a b : rstr) : bool :=
  if list_eq_dec ascii_dec a b then true else false.

(** [s.starts_with(p)] *)
Fixpoint starts_with (p s : rstr) : bool :=
  match p, s with
  | [], _ => true
  | c :: p', d :: s' => if ascii_dec c d then starts_with p' s' else false
  | _ :: _, [] => false
  end.

(** [s.strip_prefix(p)] *)
Fixpoint strip_prefix (p s : rstr) : option rstr :=
  match p, s with
  | [], _ => Some s
  | c :: p', d :: s' => if ascii_dec c d then strip_prefix p' s' else None
  | _ :: _, [] => None
  end.

(** [s.strip_suffix(p)] *)
Definition strip_suffix (p s : rstr) : option rstr :=
  option_map (@rev ascii) (strip_prefix (rev p) (rev s)).

(** [str::replace(s, pat, rep)] for a non-empty pattern: the matches are
    found left to right and do not overlap; [skip] counts the characters
    of the current match still to be dropped.  For the empty pattern Rust
    inserts [rep] before every character and at the end. *)
Fixpoint replace_go (pat rep : rstr) (skip : nat) (s : rstr) : rstr :=
  match s with
  | [] => []
  | c :: s' =>
      match skip with
      | S k => replace_go pat rep k s'
      | O => if starts_with pat s
             then rep ++ replace_go pat rep (pred (List.length pat)) s'
             else c :: replace_go pat rep 0 s'
      end
  end.

Definition replace (s pat rep : rstr) : rstr :=
  match pat with
  | [] => flat_map (fun c => rep ++ [c]) s ++ rep
  | _ => replace_go pat rep 0 s
  end.

(** Display of a [u8] ([format!("{}", n)]). *)
Definition dec_digit (n : nat) : ascii := ascii_of_nat (48 + n).

Definition fmt_u8 (b : Byte.byte) : rstr :=
  let n := Byte.to_nat b in
  if n <? 10 then [dec_digit n]
  else if n <? 100 then [dec_digit (n / 10); dec_digit (n mod 10)]
  else [dec_digit (n / 100); dec_digit (n / 10 mod 10); dec_digit (n mod 10)].

(** Lower-case hexadecimal of a [u8], zero-padded to two digits
    ([format!("{:02x}", n)]). *)
Definition hex_digit (n : nat) : ascii :=
  if n <? 10 then ascii_of_nat (48 + n) else ascii_of_nat (87 + n).

Definition fmt_02x (b : Byte.byte) : rstr :=
  let n := Byte.to_nat b in [hex_digit (n / 16); hex_digit (n mod 16)].

(** ** [GuestNetworkConfig] *)

Record GuestNetworkConfig := {
  guest_ip : rstr;
  host_ip : rstr;
  guest_mac : rstr;
  tap_name : rstr;
}.

(** [[u8; 6]] *)
Record mac6 := { m0 : Byte.byte; m1 : Byte.byte; m2 : Byte.byte;
                 m3 : Byte.byte; m4 : Byte.byte; m5 : Byte.byte }.

(** [m[0] = 0x2e] *)
Definition set_m0 (m : mac6) (b : Byte.byte) : mac6 :=
  {| m0 := b; m1 := m1 m; m2 := m2 m; m3 := m3 m; m4 := m4 m; m5 := m5 m |}.

Definition colon : rstr := lit ":".

(** [GuestNetworkConfig::new(counter)]; [rnd] is the value drawn by
    [rand::thread_rng().gen::<[u8; 6]>()]. *)
Definition GuestNetworkConfig_new (counter : Byte.byte) (rnd : mac6)
  : GuestNetworkConfig :=
  let m := set_m0 rnd Byte.x2e in
  let guest_mac :=
    fmt_02x (m0 m) ++ colon ++ fmt_02x (m1 m) ++ colon ++ fmt_02x (m2 m)
    ++ colon ++ fmt_02x (m3 m) ++ colon ++ fmt_02x (m4 m) ++ colon
    ++ fmt_02x (m5 m) in
  {| guest_mac := guest_mac;
     host_ip := lit "192.168." ++ fmt_u8 counter ++ lit ".1";
     guest_ip := lit "192.168." ++ fmt_u8 counter ++ lit ".2";
     tap_name := lit "fwtap" ++ fmt_u8 counter |}.

Example new_example :
  GuestNetworkConfig_new Byte.x07
    {| m0 := Byte.xff; m1 := Byte.x01; m2 := Byte.xab; m3 := Byte.x00;
       m4 := Byte.x10; m5 := Byte.xc3 |}
  = {| guest_mac := lit "2e:01:ab:00:10:c3";
       host_ip := lit "192.168.7.1"; guest_ip := lit "192.168.7.2";
       tap_name := lit "fwtap7" |}.
Proof. reflexivity. Qed.

Example replace_example :
  replace (lit "a192.168.2.1b192.168.2.1") (lit "192.168.2.1") (lit "X")
  = lit "aXbX".
Proof. reflexivity. Qed.

(** ** Outcomes of the outside world *)

Inductive result (T E : Type) := Ok (t : T) | Err (e : E).
Arguments Ok {T E} t.
Arguments Err {T E} e.

(** [std::io::Error] and [ssh2::Error], kept as their numeric codes. *)
Inductive io_error := IoError (code : Z).
Inductive ssh2_error := Ssh2Error (code : Z).

(** [enum SSHCommandError] *)
Inductive SSHCommandError :=
| Connection (e : io_error)
| Handshake (e : ssh2_error)
| Authentication (e : ssh2_error)
| ChannelSession (e : ssh2_error)
| Command (e : ssh2_error).

(** Filesystem calls of the harness. *)
Inductive io_op :=
| IoCreateDirAll (p : rstr)
| IoCopy (src dst : rstr)
| IoOpen (p : rstr)
| IoReadToString (p : rstr)
| IoCreate (p : rstr)
| IoWriteAll (p : rstr) (data : rstr).

(** What [Command::output()] / [Command::status()] observe: either the
    child could not be started, or it exited with an optional exit code
    ([None] when it was killed by a signal). *)
Inductive proc_result := SpawnFailed | Exited (code : option Z).

Definition success (r : proc_result) : bool :=
  match r with Exited (Some 0%Z) => true | _ => false end.

(** What the SSH client observes during one attempt of the closure in
    [ssh_command]: the results of each library call. *)
Record attempt_env := {
  a_connect : result unit io_error;        (* TcpStream::connect *)
  a_session_new : bool;                    (* Session::new() is Ok *)
  a_handshake : result unit ssh2_error;    (* sess.handshake() *)
  a_userauth : result unit ssh2_error;     (* sess.userauth_password *)
  a_authenticated : bool;                  (* sess.authenticated() *)
  a_channel : result unit ssh2_error;      (* sess.channel_session() *)
  a_exec : result unit ssh2_error;         (* channel.exec(command) *)
  a_read_data : rstr;                      (* what read_to_string appends *)
  a_read : result unit io_error;           (* result of read_to_string *)
  a_close : result unit ssh2_error;        (* channel.close() *)
  a_wait_close : result unit ssh2_error    (* channel.wait_close() *)
}.

(** The world one run of the harness sees. *)
Record World := {
  w_tempdir : option rstr;           (* TempDir::new("rhfw") *)
  w_cwd : option rstr;               (* std::env::current_dir() *)
  w_home : option rstr;              (* dirs::home_dir() *)
  w_io : io_op -> bool;              (* whether a filesystem call succeeds *)
  w_file : rstr -> rstr;             (* contents of a file that is read *)
  w_proc : list rstr -> proc_result; (* running a child process to its end *)
  w_spawn : list rstr -> bool;       (* Command::spawn() succeeds *)
  w_counter : nat;                   (* value returned by COUNTER.fetch_add *)
  w_rand : mac6;                     (* rand::thread_rng().gen::<[u8; 6]>() *)
  w_ssh : nat -> attempt_env;        (* the network as seen by attempt n *)
  w_kill : bool;                     (* child.kill() is Ok *)
  w_wait : bool                      (* child.wait() is Ok *)
}.

(** Externally visible events. *)
Inductive event :=
| EvIo (op : io_op)
| EvRun (argv : list rstr)       (* a child process run to its end *)
| EvSpawn (argv : list rstr)     (* a child process left running *)
| EvSleep (secs : nat)           (* thread::sleep *)
| EvConnect (addr : rstr)        (* TcpStream::connect *)
| EvExec (command : rstr)        (* channel.exec *)
| EvKill                         (* child.kill() *)
| EvWait.                        (* child.wait() *)

(** ** The panic/trace monad *)

Definition M (A : Type) : Type := (option A * list event)%type.

Definition ret {A} (a : A) : M A := (Some a, []).

Definition panic {A} : M A := (None, []).

Definition bind {A B} (m : M A) (f : A -> M B) : M B :=
  match m with
  | (Some a, t) => match f a with (r, t') => (r, t ++ t') end
  | (None, t) => (None, t)
  end.

Notation "x <- m ;; k" := (bind m (fun x => k))
  (at level 61, m at next level, right associativity).
Notation "m ;;; k" := (bind m (fun _ => k))
  (at level 61, right associativity).

Definition emit (e : event) : M unit := (Some tt, [e]).

(** [assert!(b)], or [expect] on a result known to be [Ok] iff [b]. *)
Definition expect (b : bool) : M unit := if b then ret tt else panic.

(** [opt.unwrap()] *)
Definition unwrap {A} (o : option A) : M A :=
  match o with Some a => ret a | None => panic end.

Fixpoint for_each {A} (f : A -> M unit) (l : list A) : M unit :=
  match l with
  | [] => ret tt
  | x :: l' => f x ;;; for_each f l'
  end.

(** [Path::join]: paths are strings with [/] separators. *)
Definition join (p : rstr) (x : string) : rstr := p ++ lit "/" ++ lit x.

(** u8 addition and multiplication in a test (debug) build: overflow
    panics. *)
Definition u8_of_nat (n : nat) : M nat := if n <? 256 then ret n else panic.

(** [v as u8] for a [usize] value [v]. *)
Definition as_u8 (v : nat) : Byte.byte :=
  match Byte.of_nat (v mod 256) with Some b => b | None => Byte.x00 end.

Section Harness.

Variable W : World.

(** A filesystem call whose failure is fatal ([.expect] / [.unwrap]). *)
Definition io (op : io_op) : M unit := emit (EvIo op) ;;; expect (w_io W op).

(** [fs::File::open(p).unwrap().read_to_string(&mut s).expect(..)] into an
    empty [s]. *)
Definition read_file (p : rstr) : M rstr :=
  io (IoOpen p) ;;; io (IoReadToString p) ;;; ret (w_file W p).

(** [fs::File::create(p).unwrap().write_all(data).expect(..)] *)
Definition write_file (p data : rstr) : M unit :=
  io (IoCreate p) ;;; io (IoWriteAll p data).

(** [Command::new(prog).args(..).output().expect(..)]: [output()] is an
    [Err] only when the child cannot be run; its exit status is returned
    inside the [Ok] value and is not looked at by the harness. *)
Definition run_output (argv : list rstr) : M proc_result :=
  emit (EvRun argv) ;;;
  match w_proc W argv with
  | SpawnFailed => panic
  | r => ret r
  end.

(** [assert!(Command::new(prog).args(..).status().expect(..).success())] *)
Definition run_status_assert (argv : list rstr) : M unit :=
  emit (EvRun argv) ;;;
  match w_proc W argv with
  | SpawnFailed => panic
  | r => expect (success r)
  end.

(** The three placeholder substitutions, in the order of the source. *)
Definition substitute (net : GuestNetworkConfig) (s : rstr) : rstr :=
  let s := replace s (lit "192.168.2.1") (host_ip net) in
  let s := replace s (lit "192.168.2.2") (guest_ip net) in
  replace s (lit "12:34:56:78:90:ab") (guest_mac net).

(** [ClearCloudInit::prepare] *)
Definition clear_prepare (tmp : rstr) (network : GuestNetworkConfig) : M rstr :=
  let cloudinit_file_path := join tmp "cloudinit" in
  let cloud_init_directory :=
    join (join (join tmp "cloud-init") "clear") "openstack" in
  io (IoCreateDirAll (join cloud_init_directory "latest")) ;;;
  cwd <- unwrap (w_cwd W) ;;
  let source_file_dir :=
    join (join (join (join (join cwd "resources") "cloud-init") "clear")
      "openstack") "latest" in
  io (IoCopy (join source_file_dir "meta_data.json")
             (join (join cloud_init_directory "latest") "meta_data.json")) ;;;
  user_data_string <- read_file (join source_file_dir "user_data") ;;
  let user_data_string := substitute network user_data_string in
  write_file (join (join cloud_init_directory "latest") "user_data")
    user_data_string ;;;
  run_output [lit "mkdosfs"; lit "-n"; lit "config-2";
              lit "-C"; cloudinit_file_path; lit "8192"] ;;;
  run_output [lit "mcopy"; lit "-o"; lit "-i"; cloudinit_file_path;
              lit "-s"; cloud_init_directory; lit "::"] ;;;
  ret cloudinit_file_path.

(** [UbuntuCloudInit::prepare] *)
Definition ubuntu_prepare (tmp : rstr) (network : GuestNetworkConfig) : M rstr :=
  let cloudinit_file_path := join tmp "cloudinit" in
  let cloud_init_directory := join (join tmp "cloud-init") "ubuntu" in
  io (IoCreateDirAll cloud_init_directory) ;;;
  cwd <- unwrap (w_cwd W) ;;
  let source_file_dir := join (join (join cwd "resources") "cloud-init") "ubuntu" in
  for_each (fun x => io (IoCopy (join source_file_dir x)
                                (join cloud_init_directory x)))
    ["meta-data"; "user-data"]%string ;;;
  network_config_string <- read_file (join source_file_dir "network-config") ;;
  let network_config_string := substitute network network_config_string in
  write_file (join cloud_init_directory "network-config")
    network_config_string ;;;
  run_output [lit "mkdosfs"; lit "-n"; lit "cidata";
              lit "-C"; cloudinit_file_path; lit "8192"] ;;;
  for_each (fun x => run_output [lit "mcopy"; lit "-o"; lit "-i";
                                 cloudinit_file_path; lit "-s";
                                 join cloud_init_directory x; lit "::"] ;;;
                     ret tt)
    ["user-data"; "meta-data"; "network-config"]%string ;;;
  ret cloudinit_file_path.

(** [trait CloudInit] and its two implementations. *)
Inductive CloudInit := ClearCloudInit | UbuntuCloudInit.

Definition prepare (ci : CloudInit) : rstr -> GuestNetworkConfig -> M rstr :=
  match ci with
  | ClearCloudInit => clear_prepare
  | UbuntuCloudInit => ubuntu_prepare
  end.

(** [prepare_os_disk] *)
Definition prepare_os_disk (tmp : rstr) (image_name : string) : M rstr :=
  home <- unwrap (w_home W) ;;
  let src_osdisk := join (join home "workloads") image_name in
  let dest_osdisk := join tmp image_name in
  io (IoCopy src_osdisk dest_osdisk) ;;;
  ret dest_osdisk.

Definition bash (cmd : rstr) : list rstr := [lit "bash"; lit "-c"; cmd].

(** [prepare_tap] *)
Definition prepare_tap (net : GuestNetworkConfig) : M unit :=
  run_status_assert
    (bash (lit "sudo ip tuntap add name " ++ tap_name net ++ lit " mode tap")) ;;;
  run_status_assert
    (bash (lit "sudo ip addr add " ++ host_ip net ++ lit "/24 dev " ++ tap_name net)) ;;;
  run_status_assert
    (bash (lit "sudo ip link set dev " ++ tap_name net ++ lit " up")).

(** [cleanup_tap] *)
Definition cleanup_tap (net : GuestNetworkConfig) : M unit :=
  run_status_assert
    (bash (lit "sudo ip tuntap de name " ++ tap_name net ++ lit " mode tap")).

(** ** [ssh_command] *)

Definition DEFAULT_SSH_RETRIES : nat := 6.
Definition DEFAULT_SSH_TIMEOUT : nat := 10.

(** The closure run by one attempt; [s] is the output buffer. *)
Definition ssh_attempt (a : attempt_env) (ip command : rstr) (s : rstr)
  : M (result unit SSHCommandError * rstr) :=
  emit (EvConnect (ip ++ lit ":22")) ;;;
  match a_connect a with
  | Err e => ret (Err (Connection e), s)
  | Ok _ =>
  expect (a_session_new a) ;;;
  match a_handshake a with
  | Err e => ret (Err (Handshake e), s)
  | Ok _ =>
  match a_userauth a with
  | Err e => ret (Err (Authentication e), s)
  | Ok _ =>
  expect (a_authenticated a) ;;;
  match a_channel a with
  | Err e => ret (Err (ChannelSession e), s)
  | Ok _ =>
  emit (EvExec command) ;;;
  match a_exec a with
  | Err e => ret (Err (Command e), s)
  | Ok _ =>
  (* the results of read_to_string, close and wait_close are dropped *)
  ret (Ok tt, s ++ a_read_data a)
  end end end end end.

(** The [loop]: [counter] is the number of failed attempts so far.  The
    loop returns once [counter] reaches [retries], so [fuel = retries]
    iterations always suffice and the [O] branch is never taken. *)
Fixpoint ssh_loop (ip command : rstr) (retries timeout : nat) (fuel counter : nat)
  (s : rstr) : M (result rstr SSHCommandError) :=
  match fuel with
  | O => panic
  | S fuel' =>
    r <- ssh_attempt (w_ssh W counter) ip command s ;;
    match r with
    | (Ok _, s') => ret (Ok s')
    | (Err e, s') =>
        counter <- u8_of_nat (counter + 1) ;;
        if retries <=? counter then ret (Err e)
        else secs <- u8_of_nat (timeout * counter) ;;
             emit (EvSleep secs) ;;;
             ssh_loop ip command retries timeout fuel' counter s'
    end
  end.

Definition ssh_command (ip command : rstr) : M (result rstr SSHCommandError) :=
  ssh_loop ip command DEFAULT_SSH_RETRIES DEFAULT_SSH_TIMEOUT
    DEFAULT_SSH_RETRIES 0 [].

(** ** VMM launch *)

Definition spawn_ch_argv (os ci : rstr) (net : GuestNetworkConfig) : list rstr :=
  [lit "./cloud-hypervisor"; lit "--console"; lit "off"; lit "--serial";
   lit "tty"; lit "--kernel"; lit "target/target/release/hypervisor-fw";
   lit "--disk"; lit "path=" ++ os; lit "path=" ++ ci; lit "--net";
   lit "tap=" ++ tap_name net ++ lit ",mac=" ++ guest_mac net].

Definition spawn_qemu_argv (os ci : rstr) (net : GuestNetworkConfig) : list rstr :=
  [lit "qemu-system-x86_64"; lit "-machine"; lit "q35,accel=kvm"; lit "-cpu";
   lit "host,-vmx"; lit "-kernel"; lit "target/target/release/hypervisor-fw";
   lit "-display"; lit "none"; lit "-nodefaults"; lit "-serial"; lit "stdio";
   lit "-drive"; lit "id=os,file=" ++ os ++ lit ",if=none";
   lit "-device"; lit "virtio-blk-pci,drive=os,disable-legacy=on";
   lit "-drive"; lit "id=ci,file=" ++ ci ++ lit ",if=none,format=raw";
   lit "-device"; lit "virtio-blk-pci,drive=ci,disable-legacy=on";
   lit "-m"; lit "1G"; lit "-netdev";
   lit "tap,id=net0,ifname=" ++ tap_name net ++ lit ",script=no,downscript=no";
   lit "-device"; lit "virtio-net-pci,netdev=net0,mac=" ++ guest_mac net].

(** [c.spawn().expect(..)]; the [eprintln!] of the command is not
    recorded. *)
Definition spawn_child (argv : list rstr) : M unit :=
  emit (EvSpawn argv) ;;; expect (w_spawn W argv).

(** [type HypervisorSpawn]: the two functions of that type. *)
Inductive HypervisorSpawn := spawn_ch | spawn_qemu.

Definition spawn (h : HypervisorSpawn) (os ci : rstr) (net : GuestNetworkConfig)
  : M unit :=
  match h with
  | spawn_ch => spawn_child (spawn_ch_argv os ci net)
  | spawn_qemu => spawn_child (spawn_qemu_argv os ci net)
  end.

(** ** [test_boot] *)

(** [GuestNetworkConfig::new(COUNTER.fetch_add(1, Ordering::SeqCst) as u8)] *)
Definition test_boot_network : GuestNetworkConfig :=
  GuestNetworkConfig_new (as_u8 (w_counter W)) (w_rand W).

(** Dropping the [TempDir] and the [Child] is not recorded: [Child]'s
    destructor neither kills nor waits for the process. *)
Definition test_boot (image_name : string) (cloud_init : CloudInit)
  (h : HypervisorSpawn) : M unit :=
  tmp_dir <- unwrap (w_tempdir W) ;;
  let net := test_boot_network in
  ci <- prepare cloud_init tmp_dir net ;;
  os <- prepare_os_disk tmp_dir image_name ;;
  prepare_tap net ;;;
  spawn h os ci net ;;;
  emit (EvSleep 20) ;;;
  r <- ssh_command (guest_ip net) (lit "sudo shutdown -h now") ;;
  match r with
  | Err _ => panic
  | Ok _ =>
    emit EvKill ;;; expect (w_kill W) ;;;
    emit EvWait ;;; expect (w_wait W) ;;;
    cleanup_tap net
  end.

End Harness.

(** ** Reading back rendered identities

    These functions are not part of the harness: they read the strings it
    produces, to state properties of them. *)

(** Value of a lower-case hexadecimal digit. *)
Definition hex_value (c : ascii) : option nat :=
  let n := nat_of_ascii c in
  if (48 <=? n) && (n <=? 57) then Some (n - 48)
  else if (97 <=? n) && (n <=? 102) then Some (n - 87)
  else None.

(** The first octet of a colon-separated MAC address. *)
Definition mac_first_octet (mac : rstr) : option nat :=
  match mac with
  | h :: l :: c :: _ =>
      if ascii_dec c ":" then
        match hex_value h, hex_value l with
        | Some a, Some b => Some (16 * a + b)
        | _, _ => None
        end
      else None
  | _ => None
  end.

(** The dot-separated components of a dotted-quad address. *)
Fixpoint split_dots_go (cur : rstr) (s : rstr) : list rstr :=
  match s with
  | [] => [rev cur]
  | c :: s' => if ascii_dec c "." then rev cur :: split_dots_go [] s'
               else split_dots_go (c :: cur) s'
  end.

Definition split_dots (s : rstr) : list rstr := split_dots_go [] s.

(** The /24 network of a dotted-quad address: its first three octets. *)
Definition subnet24 (ip : rstr) : list rstr := firstn 3 (split_dots ip).

(** Value of a decimal numeral. *)
Fixpoint dec_value_go (acc : nat) (s : rstr) : nat :=
  match s with
  | [] => acc
  | c :: s' => dec_value_go (10 * acc + (nat_of_ascii c - 48)) s'
  end.

Definition dec_value (s : rstr) : nat := dec_value_go 0 s.

(** A canonical decimal numeral: one or more digits [0]-[9], with no
    leading zero unless it is the numeral [0] itself. *)
Definition is_dec_digit (c : ascii) : bool :=
  (48 <=? nat_of_ascii c) && (nat_of_ascii c <=? 57).

Definition dec_numeral (s : rstr) : bool :=
  forallb is_dec_digit s &&
  match s with
  | [] => false
  | c :: _ :: _ => negb (Nat.eqb (nat_of_ascii c) 48)
  | _ => true
  end.

(** ** Reading back the behaviour of [ssh_command] *)

(** The attempts and sleeps of a trace. *)
Inductive sched := SAttempt | SSleep (secs : nat).

Definition sched_of (e : event) : list sched :=
  match e with
  | EvConnect _ => [SAttempt]
  | EvSleep d => [SSleep d]
  | _ => []
  end.

Definition schedule (tr : list event) : list sched := flat_map sched_of tr.

(** Number of attempts: each attempt starts with one [TcpStream::connect]. *)
Definition attempts (tr : list event) : nat :=
  List.length (filter (fun x => match x with SAttempt => true | _ => false end)
                 (schedule tr)).

(** Linear back-off as the design describes it: [k] attempts, and between
    attempt [n] and attempt [n + 1] a sleep of [base * n] seconds. *)
Definition spec_backoff_schedule (base k : nat) : list sched :=
  match k with
  | O => []
  | S k' => SAttempt :: flat_map (fun n => [SSleep (base * n); SAttempt]) (seq 1 k')
  end.

(** Connection, handshake, authentication, channel opening and command
    execution all succeed during attempt [a]. *)
Definition steps_succeed (a : attempt_env) : Prop :=
  a_connect a = Ok tt /\ a_session_new a = true /\ a_handshake a = Ok tt /\
  a_userauth a = Ok tt /\ a_authenticated a = true /\ a_channel a = Ok tt /\
  a_exec a = Ok tt.

(** Attempt [a] fails with [e]: the step named by [e] fails with the
    payload of [e], after every earlier step succeeded. *)
Definition failing_step (a : attempt_env) (e : SSHCommandError) : Prop :=
  match e with
  | Connection x => a_connect a = Err x
  | Handshake x =>
      a_connect a = Ok tt /\ a_session_new a = true /\ a_handshake a = Err x
  | Authentication x =>
      a_connect a = Ok tt /\ a_session_new a = true /\ a_handshake a = Ok tt /\
      a_userauth a = Err x
  | ChannelSession x =>
      a_connect a = Ok tt /\ a_session_new a = true /\ a_handshake a = Ok tt /\
      a_userauth a = Ok tt /\ a_authenticated a = true /\ a_channel a = Err x
  | Command x =>
      a_connect a = Ok tt /\ a_session_new a = true /\ a_handshake a = Ok tt /\
      a_userauth a = Ok tt /\ a_authenticated a = true /\ a_channel a = Ok tt /\
      a_exec a = Err x
  end.

(** ** Reading back the seed files *)

(** The template each seeder reads its templated file from. *)
Definition template_file (ci : CloudInit) (cwd : rstr) : rstr :=
  match ci with
  | ClearCloudInit =>
      join (join (join (join (join (join cwd "resources") "cloud-init") "clear")
        "openstack") "latest") "user_data"
  | UbuntuCloudInit =>
      join (join (join (join cwd "resources") "cloud-init") "ubuntu") "network-config"
  end.

(** The templated file each seeder writes. *)
Definition templated_file (ci : CloudInit) (tmp : rstr) : rstr :=
  match ci with
  | ClearCloudInit =>
      join (join (join (join (join tmp "cloud-init") "clear") "openstack") "latest")
        "user_data"
  | UbuntuCloudInit => join (join (join tmp "cloud-init") "ubuntu") "network-config"
  end.

(** [p] occurs in [s]. *)
Definition occurs (p s : rstr) : Prop := exists pre suf, s = pre ++ p ++ suf.

(** Placeholder substitution as the design describes it: one left-to-right
    scan of the template in which each occurrence of one of the three
    placeholders is replaced by its value and every other character is
    kept. *)
Fixpoint subst_all_go (rules : list (rstr * rstr)) (skip : nat) (s : rstr) : rstr :=
  match s with
  | [] => []
  | c :: s' =>
      match skip with
      | S k => subst_all_go rules k s'
      | O =>
          match find (fun r => starts_with (fst r) s) rules with
          | Some (p, v) => v ++ subst_all_go rules (pred (List.length p)) s'
          | None => c :: subst_all_go rules 0 s'
          end
      end
  end.

Definition spec_substitute (net : GuestNetworkConfig) (s : rstr) : rstr :=
  subst_all_go [(lit "192.168.2.1", host_ip net); (lit "192.168.2.2", guest_ip net);
                (lit "12:34:56:78:90:ab", guest_mac net)] 0 s.

(** Decides [occurs]. *)
Fixpoint occursb (p s : rstr) : bool :=
  starts_with p s || match s with [] => false | _ :: s' => occursb p s' end.

(** ** Reading back the resource life cycle of [test_boot] *)

(** Creation and deletion of a tap device, the VMM being spawned, killed and
    waited for. *)
Inductive lc_event :=
| LcTapAdd (name : rstr)
| LcTapDel (name : rstr)
| LcSpawn
| LcKill
| LcWait.

(** The device name of a [bash -c "<prefix><name> mode tap"] command. *)
Definition tap_command (prefix : string) (argv : list rstr) : option rstr :=
  match argv with
  | [b; c; cmd] =>
      if rstr_eqb b (lit "bash") && rstr_eqb c (lit "-c") then
        match strip_prefix (lit prefix) cmd with
        | Some r => strip_suffix (lit " mode tap") r
        | None => None
        end
      else None
  | _ => None
  end.

Definition classify (e : event) : list lc_event :=
  match e with
  | EvRun argv =>
      match tap_command "sudo ip tuntap add name " argv with
      | Some n => [LcTapAdd n]
      | None =>
          match tap_command "sudo ip tuntap de name " argv with
          | Some n => [LcTapDel n]
          | None => []
          end
      end
  | EvSpawn _ => [LcSpawn]
  | EvKill => [LcKill]
  | EvWait => [LcWait]
  | _ => []
  end.

Definition lifecycle (tr : list event) : list lc_event := flat_map classify tr.

(** ** Sample inputs *)

Definition zero_mac : mac6 :=
  {| m0 := Byte.x00; m1 := Byte.x00; m2 := Byte.x00;
     m3 := Byte.x00; m4 := Byte.x00; m5 := Byte.x00 |}.

(** An attempt against a guest whose SSH service accepts the login; the
    output read, the [close] and the [wait_close] all fail. *)
Definition ok_attempt : attempt_env :=
  {| a_connect := Ok tt; a_session_new := true; a_handshake := Ok tt;
     a_userauth := Ok tt; a_authenticated := true; a_channel := Ok tt;
     a_exec := Ok tt; a_read_data := lit "Connection closed";
     a_read := Err (IoError 104); a_close := Err (Ssh2Error (-7));
     a_wait_close := Err (Ssh2Error (-7)) |}.

(** An attempt against a guest that is not listening yet. *)
Definition refused_attempt : attempt_env :=
  {| a_connect := Err (IoError 111); a_session_new := true; a_handshake := Ok tt;
     a_userauth := Ok tt; a_authenticated := true; a_channel := Ok tt;
     a_exec := Ok tt; a_read_data := []; a_read := Ok tt; a_close := Ok tt;
     a_wait_close := Ok tt |}.

(** A world where every filesystem call and every spawn succeeds. *)
Definition sample_world (template : rstr) (proc : list rstr -> proc_result)
  (net : nat -> attempt_env) : World :=
  {| w_tempdir := Some (lit "/tmp/rhfw.a1b2"); w_cwd := Some (lit "/src/fw");
     w_home := Some (lit "/home/ci"); w_io := fun _ => true;
     w_file := fun _ => template; w_proc := proc; w_spawn := fun _ => true;
     w_counter := 6; w_rand := zero_mac; w_ssh := net;
     w_kill := true; w_wait := true |}.

Definition all_succeed : list rstr -> proc_result := fun _ => Exited (Some 0%Z).

(** [mkdosfs] and [mcopy] run but exit with status 1; every other
    command succeeds. *)
Definition image_tools_fail : list rstr -> proc_result := fun argv =>
  match argv with
  | p :: _ => if rstr_eqb p (lit "mkdosfs") || rstr_eqb p (lit "mcopy")
              then Exited (Some 1%Z) else Exited (Some 0%Z)
  | [] => Exited (Some 0%Z)
  end.

(** A template in which the host-address placeholder is directly followed
    by [68.2.2], and an identity whose counter is 192. *)
Definition tricky_template : rstr := lit "192.168.2.168.2.2".

Definition net192 : GuestNetworkConfig := GuestNetworkConfig_new Byte.xc0 zero_mac.

Definition tricky_world : World := sample_world tricky_template all_succeed (fun _ => ok_attempt).

(** ** Identities generated in one process *)

(** The identities of [n] successive [test_boot] runs in one process, the
    counter reading [start], [start + 1], ... (the static [COUNTER] starts
    at 6); run [v] draws its own random MAC bytes [rnd v]. *)
Definition identities (start n : nat) (rnd : nat -> mac6) : list GuestNetworkConfig :=
  map (fun v => GuestNetworkConfig_new (as_u8 v) (rnd v)) (seq start n).

Definition taps (start n : nat) (rnd : nat -> mac6) : list rstr :=
  map tap_name (identities start n rnd).

Definition subnets (start n : nat) (rnd : nat -> mac6) : list (list rstr) :=
  map (fun g => subnet24 (host_ip g)) (identities start n rnd).

Fixpoint nodupb {A} (dec : forall x y : A, {x = y} + {x <> y}) (l : list A) : bool :=
  match l with
  | [] => true
  | x :: l' => negb (existsb (fun y => if dec x y then true else false) l') && nodupb dec l'
  end.

Definition rstr_dec : forall x y : rstr, {x = y} + {x <> y} := list_eq_dec ascii_dec.
Definition subnet_dec : forall x y : list rstr, {x = y} + {x <> y} := list_eq_dec rstr_dec.

(** ** The test entry points *)

Definition BIONIC_IMAGE_NAME : string := "bionic-server-cloudimg-amd64-raw.img".
Definition FOCAL_IMAGE_NAME : string := "focal-server-cloudimg-amd64-raw.img".
Definition CLEAR_IMAGE_NAME : string := "clear-31311-cloudguest.img".

Definition test_boot_qemu_bionic (W : World) : M unit :=
  test_boot W BIONIC_IMAGE_NAME UbuntuCloudInit spawn_qemu.

(** Not registered as a [#[test]] ("Does not currently work"). *)
Definition test_boot_qemu_focal (W : World) : M unit :=
  test_boot W FOCAL_IMAGE_NAME UbuntuCloudInit spawn_qemu.

Definition test_boot_qemu_clear (W : World) : M unit :=
  test_boot W CLEAR_IMAGE_NAME ClearCloudInit spawn_qemu.

Definition test_boot_ch_bionic (W : World) : M unit :=
  test_boot W BIONIC_IMAGE_NAME UbuntuCloudInit spawn_ch.

Definition test_boot_ch_focal (W : World) : M unit :=
  test_boot W FOCAL_IMAGE_NAME UbuntuCloudInit spawn_ch.

Definition test_boot_ch_clear (W : World) : M unit :=
  test_boot W CLEAR_IMAGE_NAME ClearCloudInit spawn_ch.

(** ** Further reading-back definitions *)

(** [p] is a prefix of [s]. *)
Definition prefix_of (p s : rstr) : Prop := exists suf, s = p ++ suf.

(** The command line each [HypervisorSpawn] launches. *)
Definition spawn_argv (h : HypervisorSpawn) : rstr -> rstr -> GuestNetworkConfig -> list rstr :=
  match h with
  | spawn_ch => spawn_ch_argv
  | spawn_qemu => spawn_qemu_argv
  end.

(** The three commands [prepare_tap] runs, in order. *)
Definition tap_cmds (net : GuestNetworkConfig) : list (list rstr) :=
  [bash (lit "sudo ip tuntap add name " ++ tap_name net ++ lit " mode tap");
   bash (lit "sudo ip addr add " ++ host_ip net ++ lit "/24 dev " ++ tap_name net);
   bash (lit "sudo ip link set dev " ++ tap_name net ++ lit " up")].

Definition tap_del_cmd (net : GuestNetworkConfig) : list rstr :=
  bash (lit "sudo ip tuntap de name " ++ tap_name net ++ lit " mode tap").


(** The octets of a colon-separated MAC address of two-digit hexadecimal
    groups. *)
Fixpoint parse_mac (s : rstr) : option (list nat) :=
  match s with
  | h :: l :: rest =>
      match hex_value h, hex_value l with
      | Some a, Some b =>
          match rest with
          | [] => Some [16 * a + b]
          | c :: rest' =>
              if ascii_dec c ":" then option_map (cons (16 * a + b)) (parse_mac rest')
              else None
          end
      | _, _ => None
      end
  | _ => None
  end.

(** The SSH connections and remote commands of a trace. *)
Definition is_remote (e : event) : bool :=
  match e with EvConnect _ | EvExec _ => true | _ => false end.

(** Seconds slept in a trace. *)
Definition sleep_of (e : event) : nat := match e with EvSleep d => d | _ => 0 end.

Definition sleep_total (tr : list event) : nat := list_sum (map sleep_of tr).


(** ** Facts about the rendering functions *)

Lemma fmt_u8_value (b : Byte.byte) : dec_value (fmt_u8 b) = Byte.to_nat b.
Proof. destruct b; reflexivity. Qed.

Lemma fmt_u8_inj (b1 b2 : Byte.byte) : fmt_u8 b1 = fmt_u8 b2 -> b1 = b2.
Proof.
  intros H.
  assert (Hn : Byte.to_nat b1 = Byte.to_nat b2)
    by (rewrite <- !fmt_u8_value, H; reflexivity).
  assert (Ho := Byte.of_to_nat b1). rewrite Hn, Byte.of_to_nat in Ho.
  congruence.
Qed.

Lemma split_dots_ip (b : Byte.byte) (d : ascii) (Hd : d <> "."%char) :
  split_dots (lit "192.168." ++ fmt_u8 b ++ ["."%char; d]) =
    [lit "192"; lit "168"; fmt_u8 b; [d]].
Proof.
  destruct b; unfold split_dots; simpl;
    destruct (ascii_dec d "."); (contradiction || reflexivity).
Qed.

Lemma host_ip_shape (c : Byte.byte) (rnd : mac6) :
  host_ip (GuestNetworkConfig_new c rnd) = lit "192.168." ++ fmt_u8 c ++ ["."%char; "1"%char].
Proof. reflexivity. Qed.

Lemma guest_ip_shape (c : Byte.byte) (rnd : mac6) :
  guest_ip (GuestNetworkConfig_new c rnd) = lit "192.168." ++ fmt_u8 c ++ ["."%char; "2"%char].
Proof. reflexivity. Qed.

Lemma subnet24_host (c : Byte.byte) (rnd : mac6) :
  subnet24 (host_ip (GuestNetworkConfig_new c rnd)) = [lit "192"; lit "168"; fmt_u8 c].
Proof. rewrite host_ip_shape; unfold subnet24; rewrite split_dots_ip; easy. Qed.

Lemma subnet24_guest (c : Byte.byte) (rnd : mac6) :
  subnet24 (guest_ip (GuestNetworkConfig_new c rnd)) = [lit "192"; lit "168"; fmt_u8 c].
Proof. rewrite guest_ip_shape; unfold subnet24; rewrite split_dots_ip; easy. Qed.

(** ** Network identities *)

(** C6: whatever the counter and the random bytes, the first octet of the
    rendered MAC address is [0x2e]: its locally-administered bit (bit 1) is
    set and its multicast bit (bit 0) is clear. *)
Theorem new_mac_first_octet (c : Byte.byte) (rnd : mac6) :
  exists o, mac_first_octet (guest_mac (GuestNetworkConfig_new c rnd)) = Some o
    /\ o = 0x2e /\ Nat.testbit o 1 = true /\ Nat.testbit o 0 = false.
Proof. exists 46; repeat split. Qed.

(** C7: two identities built from different counters lie on different /24
    networks (each identity's host and guest addresses share its network)
    and have different interface names. *)
Theorem new_distinct_counters (c1 c2 : Byte.byte) (r1 r2 : mac6) :
  c1 <> c2 ->
  let n1 := GuestNetworkConfig_new c1 r1 in
  let n2 := GuestNetworkConfig_new c2 r2 in
  subnet24 (host_ip n1) = subnet24 (guest_ip n1) /\
  subnet24 (host_ip n2) = subnet24 (guest_ip n2) /\
  subnet24 (host_ip n1) <> subnet24 (host_ip n2) /\
  tap_name n1 <> tap_name n2.
Proof.
  intros Hc n1 n2; subst n1 n2.
  rewrite !subnet24_host, !subnet24_guest.
  repeat split.
  - intros H; injection H as H; apply Hc, fmt_u8_inj, H.
  - simpl; intros H; apply Hc, fmt_u8_inj, (app_inv_head (lit "fwtap")), H.
Qed.

Lemma new_distinct_counters_witness :
  let n1 := GuestNetworkConfig_new Byte.x06 zero_mac in
  let n2 := GuestNetworkConfig_new Byte.x07 zero_mac in
  Byte.x06 <> Byte.x07 /\
  subnet24 (host_ip n1) = subnet24 (guest_ip n1) /\
  subnet24 (host_ip n2) = subnet24 (guest_ip n2) /\
  subnet24 (host_ip n1) <> subnet24 (host_ip n2) /\
  tap_name n1 <> tap_name n2.
Proof.
  split; [discriminate | apply (new_distinct_counters Byte.x06 Byte.x07); discriminate].
Defined.

(** ** The monad *)

Lemma bind_ret_l {A B} (a : A) (f : A -> M B) : bind (ret a) f = f a.
Proof. unfold bind, ret; destruct (f a); reflexivity. Qed.

Lemma bind_some {A B} (a : A) t (f : A -> M B) :
  bind (Some a, t) f = (fst (f a), t ++ snd (f a)).
Proof. unfold bind; destruct (f a); reflexivity. Qed.

Lemma bind_none {A B} t (f : A -> M B) : bind (None, t) f = (None, t).
Proof. reflexivity. Qed.

Lemma bind_inv {A B} (m : M A) (f : A -> M B) b t :
  bind m f = (Some b, t) ->
  exists a t1 t2, m = (Some a, t1) /\ f a = (Some b, t2) /\ t = t1 ++ t2.
Proof.
  destruct m as [[a|] t1]; simpl; [|discriminate].
  destruct (f a) as [r t2] eqn:E; intros H; injection H as H1 H2; subst.
  exists a, t1, t2; auto.
Qed.

Lemma u8_of_nat_small n : n < 256 -> u8_of_nat n = ret n.
Proof. intros H; unfold u8_of_nat; apply Nat.ltb_lt in H; rewrite H; reflexivity. Qed.

Lemma schedule_app t1 t2 : schedule (t1 ++ t2) = schedule t1 ++ schedule t2.
Proof. apply flat_map_app. Qed.

Lemma attempts_app t1 t2 : attempts (t1 ++ t2) = attempts t1 + attempts t2.
Proof. unfold attempts; rewrite schedule_app, filter_app, length_app; reflexivity. Qed.

(** ** One attempt of [ssh_command] *)

Lemma ssh_attempt_cases a ip command s :
  schedule (snd (ssh_attempt a ip command s)) = [SAttempt] /\
  ((exists e, failing_step a e /\ fst (ssh_attempt a ip command s) = Some (Err e, s)) \/
   (steps_succeed a /\
    fst (ssh_attempt a ip command s) = Some (Ok tt, s ++ a_read_data a)) \/
   fst (ssh_attempt a ip command s) = None).
Proof.
  destruct a as [con sn hs ua au ch ex rd r cl wc]; unfold ssh_attempt; simpl.
  destruct con as [[]|x]; simpl.
  2:{ split; [reflexivity|]. left; exists (Connection x); simpl; auto. }
  destruct sn; simpl.
  2:{ split; [reflexivity|]. right; right; reflexivity. }
  destruct hs as [[]|x]; simpl.
  2:{ split; [reflexivity|]. left; exists (Handshake x); simpl; auto. }
  destruct ua as [[]|x]; simpl.
  2:{ split; [reflexivity|]. left; exists (Authentication x); simpl; auto. }
  destruct au; simpl.
  2:{ split; [reflexivity|]. right; right; reflexivity. }
  destruct ch as [[]|x]; simpl.
  2:{ split; [reflexivity|]. left; exists (ChannelSession x); simpl; auto 7. }
  destruct ex as [[]|x]; simpl.
  2:{ split; [reflexivity|]. left; exists (Command x); simpl; auto 8. }
  split; [reflexivity|]. right; left; split; [unfold steps_succeed; simpl; auto 8|].
  reflexivity.
Qed.

Lemma ssh_attempt_err a ip command s e s' :
  fst (ssh_attempt a ip command s) = Some (Err e, s') -> failing_step a e /\ s' = s.
Proof.
  destruct (ssh_attempt_cases a ip command s) as [_ [(e' & He' & E)|[(_ & E)|E]]];
    rewrite E; intros H; try discriminate.
  injection H as -> ->; auto.
Qed.

Lemma ssh_attempt_ok a ip command s s' :
  fst (ssh_attempt a ip command s) = Some (Ok tt, s') ->
  steps_succeed a /\ s' = s ++ a_read_data a.
Proof.
  destruct (ssh_attempt_cases a ip command s) as [_ [(e' & He' & E)|[(Hs & E)|E]]];
    rewrite E; intros H; try discriminate.
  injection H as ->; auto.
Qed.

Lemma failing_step_attempt a ip command s e :
  failing_step a e -> fst (ssh_attempt a ip command s) = Some (Err e, s).
Proof.
  destruct a as [con sn hs ua au ch ex rd r cl wc]; intros H.
  destruct e; simpl in H; decompose [and] H; subst; reflexivity.
Qed.

Lemma steps_succeed_attempt a ip command s :
  steps_succeed a ->
  fst (ssh_attempt a ip command s) = Some (Ok tt, s ++ a_read_data a).
Proof.
  intros (H1 & H2 & H3 & H4 & H5 & H6 & H7); unfold ssh_attempt;
    rewrite H1, H2, H3, H4, H5, H6, H7; reflexivity.
Qed.

Lemma attempts_one t : schedule t = [SAttempt] -> attempts t = 1.
Proof. intros H; unfold attempts; rewrite H; reflexivity. Qed.

(** ** The retry loop of [ssh_command] *)

Section Loop.

Variables (W : World) (ip command : rstr).

(** Opens one iteration of the loop at attempt [counter], naming the
    attempt's outcome [r], its output buffer [s'] and its trace [t]. *)
Ltac open_iteration counter s :=
  cbn [ssh_loop];
  let Hs := fresh "Hs" in let Hk := fresh "Hk" in let E := fresh "E" in
  destruct (ssh_attempt_cases (w_ssh W counter) ip command s) as [Hs Hk];
  destruct (ssh_attempt (w_ssh W counter) ip command s) as [[[r s']|] t] eqn:E;
  simpl in Hs, Hk;
  [rewrite bind_some; destruct r as [[]|e];
   [|rewrite u8_of_nat_small by lia; rewrite bind_ret_l]
  | rewrite bind_none].

Lemma ssh_loop_schedule fuel : forall counter s,
  counter + fuel = 6 -> 0 < fuel ->
  exists k, k < fuel /\
  schedule (snd (ssh_loop W ip command 6 10 fuel counter s)) =
    SAttempt :: flat_map (fun n => [SSleep (10 * n); SAttempt]) (seq (S counter) k).
Proof.
  induction fuel as [|fuel IH]; intros counter s Hc Hf; [lia|].
  open_iteration counter s.
  - exists 0; split; [lia|]; simpl; rewrite schedule_app, Hs; reflexivity.
  - destruct (Nat.leb_spec 6 (counter + 1)).
    + exists 0; split; [lia|]; simpl; rewrite schedule_app, Hs; reflexivity.
    + rewrite u8_of_nat_small by lia; rewrite bind_ret_l.
      destruct (IH (counter + 1) s') as (k & Hk' & Hsch); [lia|lia|].
      exists (S k); split; [lia|].
      replace (counter + 1) with (S counter) in * by lia.
      unfold emit; rewrite bind_some; cbn [fst snd].
      rewrite !schedule_app, Hs, Hsch; reflexivity.
  - exists 0; split; [lia|]; simpl; rewrite Hs; reflexivity.
Qed.

Lemma ssh_loop_err fuel : forall counter s e,
  counter + fuel = 6 ->
  fst (ssh_loop W ip command 6 10 fuel counter s) = Some (Err e) ->
  (forall n, counter <= n < 5 -> exists e', failing_step (w_ssh W n) e') /\
  failing_step (w_ssh W 5) e.
Proof.
  induction fuel as [|fuel IH]; intros counter s e0 Hc He; [discriminate|].
  revert He; open_iteration counter s; intros He; try discriminate.
  destruct (ssh_attempt_err _ _ _ _ _ _ (f_equal fst E)) as [Hfail ->].
  destruct (Nat.leb_spec 6 (counter + 1)).
  - simpl in He; injection He as <-.
    replace counter with 5 in Hfail by lia; split; [intros; lia|exact Hfail].
  - rewrite u8_of_nat_small in He by lia; rewrite bind_ret_l in He.
    unfold emit in He; rewrite bind_some in He; cbn [fst] in He.
    destruct (IH (counter + 1) s e0) as [Hpre Hlast]; [lia|exact He|].
    split; [|exact Hlast].
    intros n Hn; destruct (Nat.eq_dec n counter) as [->|Hne];
      [exists e; exact Hfail | apply Hpre; lia].
Qed.

Lemma ssh_loop_all_fail fuel : forall counter s,
  counter + fuel = 6 -> 0 < fuel ->
  (forall n, counter <= n <= 5 -> exists e, failing_step (w_ssh W n) e) ->
  (exists e, fst (ssh_loop W ip command 6 10 fuel counter s) = Some (Err e)) /\
  attempts (snd (ssh_loop W ip command 6 10 fuel counter s)) = fuel.
Proof.
  induction fuel as [|fuel IH]; intros counter s Hc Hf Hall; [lia|].
  destruct (Hall counter) as [e0 He0]; [lia|].
  pose proof (failing_step_attempt _ ip command s _ He0) as F.
  open_iteration counter s; simpl in F; try discriminate.
  injection F as -> ->.
  destruct (Nat.leb_spec 6 (counter + 1)).
  - simpl; rewrite attempts_app, (attempts_one _ Hs).
    split; [eexists; reflexivity|unfold attempts; simpl; lia].
  - rewrite u8_of_nat_small by lia; rewrite bind_ret_l.
    unfold emit; rewrite bind_some; cbn [fst snd].
    destruct (IH (counter + 1) s) as [Herr Hatt]; [lia|lia|intros; apply Hall; lia|].
    split; [exact Herr|].
    rewrite !attempts_app, (attempts_one _ Hs), Hatt; reflexivity.
Qed.

Lemma ssh_loop_ok fuel : forall counter s n,
  counter + fuel = 6 -> counter <= n < 6 ->
  (forall m, counter <= m < n -> exists e, failing_step (w_ssh W m) e) ->
  steps_succeed (w_ssh W n) ->
  fst (ssh_loop W ip command 6 10 fuel counter s) = Some (Ok (s ++ a_read_data (w_ssh W n))) /\
  attempts (snd (ssh_loop W ip command 6 10 fuel counter s)) = S (n - counter).
Proof.
  induction fuel as [|fuel IH]; intros counter s n Hc Hn Hpre Hok; [lia|].
  destruct (Nat.eq_dec n counter) as [->|Hne].
  - pose proof (steps_succeed_attempt _ ip command s Hok) as F.
    open_iteration counter s; simpl in F; try discriminate.
    injection F as ->; simpl; rewrite app_nil_r, (attempts_one _ Hs).
    split; [reflexivity|lia].
  - destruct (Hpre counter) as [e0 He0]; [lia|].
    pose proof (failing_step_attempt _ ip command s _ He0) as F.
    open_iteration counter s; simpl in F; try discriminate.
    injection F as -> ->.
    destruct (Nat.leb_spec 6 (counter + 1)); [lia|].
    rewrite u8_of_nat_small by lia; rewrite bind_ret_l.
    unfold emit; rewrite bind_some; cbn [fst snd].
    destruct (IH (counter + 1) s n) as [Hr Hatt]; [lia|lia|intros; apply Hpre; lia|exact Hok|].
    split; [exact Hr|].
    rewrite !attempts_app, (attempts_one _ Hs), Hatt; simpl; lia.
Qed.

Lemma ssh_loop_retry_only_on_failure fuel : forall counter s n,
  counter + fuel = 6 -> counter <= n ->
  S (n - counter) < attempts (snd (ssh_loop W ip command 6 10 fuel counter s)) ->
  exists e, failing_step (w_ssh W n) e.
Proof.
  induction fuel as [|fuel IH]; intros counter s n Hc Hn Hatt; [unfold attempts in Hatt; simpl in Hatt; lia|].
  revert Hatt; open_iteration counter s; intros Hatt.
  - simpl in Hatt; rewrite app_nil_r, (attempts_one _ Hs) in Hatt; lia.
  - destruct (ssh_attempt_err _ _ _ _ _ _ (f_equal fst E)) as [Hfail ->].
    destruct (Nat.leb_spec 6 (counter + 1)).
    + simpl in Hatt; rewrite app_nil_r, (attempts_one _ Hs) in Hatt; lia.
    + rewrite u8_of_nat_small in Hatt by lia; rewrite bind_ret_l in Hatt.
      unfold emit in Hatt; rewrite bind_some in Hatt; cbn [fst snd] in Hatt.
      rewrite !attempts_app, (attempts_one _ Hs) in Hatt.
      destruct (Nat.eq_dec n counter) as [->|Hne]; [eauto|].
      apply (IH (counter + 1) s); [lia|lia|simpl in Hatt; lia].
  - simpl in Hatt; rewrite (attempts_one _ Hs) in Hatt; lia.
Qed.

Lemma ssh_loop_some_attempt fuel : forall counter s,
  counter + fuel = 6 -> 0 < fuel ->
  1 <= attempts (snd (ssh_loop W ip command 6 10 fuel counter s)).
Proof.
  intros counter s Hc Hf.
  destruct (ssh_loop_schedule fuel counter s Hc Hf) as (k & _ & Hsch).
  unfold attempts; rewrite Hsch; simpl; lia.
Qed.

(** A failed attempt before the last one is always followed by another. *)
Lemma ssh_loop_fail_continues fuel : forall counter s n,
  counter + fuel = 6 -> counter <= n < 5 ->
  (forall m, counter <= m <= n -> exists e, failing_step (w_ssh W m) e) ->
  S (S (n - counter)) <= attempts (snd (ssh_loop W ip command 6 10 fuel counter s)).
Proof.
  induction fuel as [|fuel IH]; intros counter s n Hc Hn Hall; [lia|].
  destruct (Hall counter) as [e0 He0]; [lia|].
  pose proof (failing_step_attempt _ ip command s _ He0) as F.
  open_iteration counter s; simpl in F; try discriminate.
  injection F as -> ->.
  destruct (Nat.leb_spec 6 (counter + 1)); [lia|].
  rewrite u8_of_nat_small by lia; rewrite bind_ret_l.
  unfold emit; rewrite bind_some; cbn [fst snd].
  rewrite !attempts_app, (attempts_one _ Hs); simpl.
  destruct (Nat.eq_dec n counter) as [->|Hne].
  - pose proof (ssh_loop_some_attempt fuel (counter + 1) s ltac:(lia) ltac:(lia)); lia.
  - pose proof (IH (counter + 1) s n ltac:(lia) ltac:(lia) ltac:(intros; apply Hall; lia)); lia.
Qed.

End Loop.

(** ** [ssh_command] *)

(** C2: if every step of the first attempt succeeds, [ssh_command]
    returns [Ok] after exactly one attempt; if every attempt fails in one of
    the five steps, it returns an error after exactly six attempts. *)
Theorem ssh_command_attempt_count (W : World) (ip command : rstr) :
  (steps_succeed (w_ssh W 0) ->
   fst (ssh_command W ip command) = Some (Ok (a_read_data (w_ssh W 0))) /\
   attempts (snd (ssh_command W ip command)) = 1) /\
  ((forall n, exists e, failing_step (w_ssh W n) e) ->
   (exists e, fst (ssh_command W ip command) = Some (Err e)) /\
   attempts (snd (ssh_command W ip command)) = DEFAULT_SSH_RETRIES).
Proof.
  split.
  - intros Hok; unfold ssh_command.
    apply (ssh_loop_ok W ip command 6 0 [] 0); [lia|lia|intros; lia|exact Hok].
  - intros Hall; unfold ssh_command.
    apply (ssh_loop_all_fail W ip command 6 0 []); [lia|lia|intros; apply Hall].
Qed.

Lemma ssh_command_attempt_count_witness :
  steps_succeed ok_attempt /\
  (forall n : nat, exists e, failing_step refused_attempt e) /\
  fst (ssh_command (sample_world [] all_succeed (fun _ => ok_attempt)) (lit "192.168.6.2")
         (lit "sudo shutdown -h now")) = Some (Ok (lit "Connection closed")) /\
  attempts (snd (ssh_command (sample_world [] all_succeed (fun _ => refused_attempt))
         (lit "192.168.6.2") (lit "sudo shutdown -h now"))) = 6.
Proof.
  assert (Hok : steps_succeed ok_attempt) by (repeat split).
  assert (Hf : forall n : nat, exists e, failing_step refused_attempt e)
    by (intros; exists (Connection (IoError 111)); reflexivity).
  split; [exact Hok|]; split; [exact Hf|]; split.
  - apply (proj1 (ssh_command_attempt_count
                    (sample_world [] all_succeed (fun _ => ok_attempt)) _ _)); exact Hok.
  - apply (proj2 (ssh_command_attempt_count
                    (sample_world [] all_succeed (fun _ => refused_attempt)) _ _)).
    exact (fun n => Hf n).
Defined.

Lemma attempts_flat_map_backoff base l :
  List.length (filter (fun x => match x with SAttempt => true | _ => false end)
    (flat_map (fun n => [SSleep (base * n); SAttempt]) l)) = List.length l.
Proof. induction l as [|n l IH]; simpl; [reflexivity|rewrite IH; reflexivity]. Qed.

Lemma attempts_backoff (tr : list event) base k :
  schedule tr = spec_backoff_schedule base k -> attempts tr = k.
Proof.
  intros H; unfold attempts; rewrite H; destruct k as [|k]; [reflexivity|].
  simpl; rewrite attempts_flat_map_backoff, length_seq; reflexivity.
Qed.

Lemma failing_not_succeed a e : failing_step a e -> steps_succeed a -> False.
Proof.
  unfold steps_succeed; destruct e; simpl; intros Hf Hs; decompose [and] Hs;
    decompose [and] Hf; congruence.
Qed.

(** C3: the attempts and sleeps of [ssh_command] follow linear back-off.
    There are [k] attempts for some [1 <= k <= 6]; there is no sleep before
    the first or after the last, and between attempt [n] and attempt
    [n + 1] (counting from 1) a sleep of [10 * n] seconds.  Each sleep
    follows a failed attempt: every attempt but the last failed in one of
    the five steps.  No sleep follows a successful attempt: an attempt
    whose five steps succeed is the last one.  And a failed attempt is the
    last one only when it is the sixth one. *)
Theorem ssh_command_linear_backoff (W : World) (ip command : rstr) :
  exists k, 1 <= k <= DEFAULT_SSH_RETRIES /\
  schedule (snd (ssh_command W ip command)) = spec_backoff_schedule 10 k /\
  (forall n, S n < k -> exists e, failing_step (w_ssh W n) e) /\
  (forall n, n < k -> steps_succeed (w_ssh W n) -> k = S n) /\
  (k < DEFAULT_SSH_RETRIES -> forall e, ~ failing_step (w_ssh W (k - 1)) e).
Proof.
  destruct (ssh_loop_schedule W ip command 6 0 []) as (k & Hk & Hs); [lia|lia|].
  assert (Hsch : schedule (snd (ssh_command W ip command)) = spec_backoff_schedule 10 (S k))
    by (unfold ssh_command, DEFAULT_SSH_RETRIES, DEFAULT_SSH_TIMEOUT; rewrite Hs; reflexivity).
  pose proof (attempts_backoff _ _ _ Hsch) as Hatt.
  unfold ssh_command, DEFAULT_SSH_RETRIES, DEFAULT_SSH_TIMEOUT in Hatt.
  assert (Hfail : forall n, S n < S k -> exists e, failing_step (w_ssh W n) e).
  { intros n Hn; apply (ssh_loop_retry_only_on_failure W ip command 6 0 [] n);
      [lia|lia|rewrite Nat.sub_0_r, Hatt; exact Hn]. }
  exists (S k); split; [unfold DEFAULT_SSH_RETRIES; lia|].
  split; [exact Hsch|]; split; [exact Hfail|]; split.
  - intros n Hn Hok; destruct (Nat.eq_dec (S k) (S n)) as [E|Hne]; [exact E|].
    destruct (Hfail n) as [e He]; [lia|].
    exfalso; exact (failing_not_succeed _ _ He Hok).
  - unfold DEFAULT_SSH_RETRIES; intros Hlt e He; simpl in He; rewrite Nat.sub_0_r in He.
    assert (Hmore : S (S (k - 0)) <= attempts (snd (ssh_loop W ip command 6 10 6 0 [])))
      by (apply ssh_loop_fail_continues; [lia|lia|]; intros m Hm;
          destruct (Nat.eq_dec m k) as [->|Hne]; [exists e; exact He|apply Hfail; lia]).
    lia.
Qed.

Example ssh_command_refused_schedule :
  schedule (snd (ssh_command (sample_world [] all_succeed (fun _ => refused_attempt))
                   (lit "192.168.6.2") (lit "true"))) =
  [SAttempt; SSleep 10; SAttempt; SSleep 20; SAttempt; SSleep 30; SAttempt;
   SSleep 40; SAttempt; SSleep 50; SAttempt].
Proof. reflexivity. Qed.

(** C4: an attempt fails only in one of the five steps, and the error
    names that step and carries its error; once the budget is spent the
    error of the last (sixth) attempt is returned; a new attempt is made
    only after a failure of one of the five steps; and an attempt whose
    five steps succeed ends the loop with [Ok] of the output read, whatever
    the results of reading the output and closing the channel. *)
Theorem ssh_command_error_kinds (W : World) (ip command : rstr) :
  (forall a s e s', fst (ssh_attempt a ip command s) = Some (Err e, s') ->
     failing_step a e) /\
  (forall e, fst (ssh_command W ip command) = Some (Err e) ->
     (forall n, n < 5 -> exists e', failing_step (w_ssh W n) e') /\
     failing_step (w_ssh W 5) e) /\
  (forall n, S n < attempts (snd (ssh_command W ip command)) ->
     exists e, failing_step (w_ssh W n) e) /\
  (forall n, n < DEFAULT_SSH_RETRIES ->
     (forall m, m < n -> exists e, failing_step (w_ssh W m) e) ->
     steps_succeed (w_ssh W n) ->
     fst (ssh_command W ip command) = Some (Ok (a_read_data (w_ssh W n))) /\
     attempts (snd (ssh_command W ip command)) = S n).
Proof.
  split; [|split; [|split]].
  - intros a s e s' H; apply (ssh_attempt_err _ _ _ _ _ _ H).
  - intros e H; destruct (ssh_loop_err W ip command 6 0 [] e) as [Hp Hl];
      [lia|exact H|].
    split; [intros n Hn; apply Hp; lia|exact Hl].
  - intros n H; apply (ssh_loop_retry_only_on_failure W ip command 6 0 [] n);
      [lia|lia|rewrite Nat.sub_0_r; exact H].
  - intros n Hn Hpre Hok; unfold DEFAULT_SSH_RETRIES in Hn.
    destruct (ssh_loop_ok W ip command 6 0 [] n) as [Hr Ha];
      [lia|lia|intros; apply Hpre; lia|exact Hok|].
    split; [exact Hr|]. unfold ssh_command, DEFAULT_SSH_RETRIES, DEFAULT_SSH_TIMEOUT; rewrite Ha; lia.
Qed.

Lemma ssh_command_error_kinds_witness :
  let W := sample_world [] all_succeed
             (fun n => if n <? 2 then refused_attempt else ok_attempt) in
  fst (ssh_command W (lit "192.168.6.2") (lit "true")) = Some (Ok (lit "Connection closed")) /\
  attempts (snd (ssh_command W (lit "192.168.6.2") (lit "true"))) = 3.
Proof.
  intros W.
  apply (proj2 (proj2 (proj2 (ssh_command_error_kinds W (lit "192.168.6.2") (lit "true")))) 2).
  - unfold DEFAULT_SSH_RETRIES; lia.
  - intros m Hm; exists (Connection (IoError 111)).
    destruct m as [|[|m]]; [reflexivity|reflexivity|lia].
  - repeat split.
Defined.

(** ** The seeders *)

Lemma prepare_ignores_exit_status (ci : CloudInit) (W : World) (tmp : rstr)
  (net : GuestNetworkConfig) :
  w_cwd W <> None -> (forall op, w_io W op = true) ->
  (forall argv, w_proc W argv <> SpawnFailed) ->
  fst (prepare W ci tmp net) = Some (join tmp "cloudinit").
Proof.
  intros Hcwd Hio Hproc.
  destruct (w_cwd W) as [cwd|] eqn:Ec; [|congruence].
  destruct ci; unfold prepare, clear_prepare, ubuntu_prepare, read_file,
    write_file, io, run_output, unwrap, emit, expect;
    rewrite Ec;
    repeat (simpl; rewrite ?Hio);
    repeat match goal with
    | |- context [w_proc W ?a] =>
        let E := fresh "E" in
        destruct (w_proc W a) eqn:E; [exfalso; exact (Hproc _ E)|];
        simpl; rewrite ?Hio
    end; reflexivity.
Qed.

(** C1 (code bug): although [mkdosfs] and [mcopy] both exit with a non-zero
    status, both seeders return the seed-image path. *)
Theorem prepare_returns_path_when_image_tools_fail (ci : CloudInit) :
  fst (prepare (sample_world (lit "") image_tools_fail (fun _ => ok_attempt)) ci
         (lit "/tmp/rhfw.a1b2") (GuestNetworkConfig_new Byte.x06 zero_mac))
  = Some (lit "/tmp/rhfw.a1b2/cloudinit").
Proof.
  apply prepare_ignores_exit_status; [discriminate|reflexivity|].
  intros argv; cbn [sample_world w_proc]; unfold image_tools_fail.
  destruct argv as [|p argv]; [discriminate|].
  case (_ || _); discriminate.
Qed.

Lemma starts_with_app p s : starts_with p s = true -> exists suf, s = p ++ suf.
Proof.
  revert s; induction p as [|c p IH]; intros s H; [exists s; reflexivity|].
  destruct s as [|d s]; [discriminate|]; simpl in H.
  destruct (ascii_dec c d) as [->|]; [|discriminate].
  destruct (IH s H) as [suf ->]; exists suf; reflexivity.
Qed.

Lemma replace_go_absent p rep s :
  p <> [] -> ~ occurs p s -> replace_go p rep 0 s = s.
Proof.
  intros Hp; induction s as [|c s IH]; intros Hs; [reflexivity|]; simpl.
  destruct (starts_with p (c :: s)) eqn:E.
  - exfalso; destruct (starts_with_app _ _ E) as [suf Hsuf].
    apply Hs; exists [], suf; exact Hsuf.
  - rewrite IH; [reflexivity|].
    intros (pre & suf & ->); apply Hs; exists (c :: pre), suf; reflexivity.
Qed.

Lemma replace_absent s p rep : p <> [] -> ~ occurs p s -> replace s p rep = s.
Proof.
  intros Hp Hs; unfold replace; destruct p as [|c p]; [congruence|].
  apply replace_go_absent; assumption.
Qed.

(** The only file [prepare] writes is the templated file, and what it
    writes is the template with the substitutions applied. *)
Lemma prepare_write (ci : CloudInit) (W : World) (tmp : rstr)
  (net : GuestNetworkConfig) p data :
  In (EvIo (IoWriteAll p data)) (snd (prepare W ci tmp net)) ->
  exists cwd, w_cwd W = Some cwd /\ p = templated_file ci tmp /\
    data = substitute net (w_file W (template_file ci cwd)).
Proof.
  destruct (w_cwd W) as [cwd|] eqn:Ec.
  2:{ destruct ci; unfold prepare, clear_prepare, ubuntu_prepare, read_file,
        write_file, io, run_output, unwrap, emit, expect; rewrite Ec; simpl;
      destruct (w_io W _); simpl; intros H; repeat destruct H as [H|H];
      try discriminate; contradiction. }
  intros H; exists cwd; split; [reflexivity|].
  destruct ci; revert H; unfold prepare, clear_prepare, ubuntu_prepare, read_file,
    write_file, io, run_output, unwrap, emit, expect; rewrite Ec;
    repeat (simpl; match goal with
                   | |- context [w_io W ?o] => destruct (w_io W o)
                   | |- context [w_proc W ?a] => destruct (w_proc W a)
                   end);
    simpl; intros H; repeat destruct H as [H|H]; try discriminate; try contradiction;
    injection H as <- <-; split; reflexivity.
Qed.

Lemma starts_with_self p suf : starts_with p (p ++ suf) = true.
Proof.
  induction p as [|c p IH]; [reflexivity|]; simpl.
  destruct (ascii_dec c c) as [_|n]; [exact IH|congruence].
Qed.

Lemma occursb_unfold p s :
  occursb p s = starts_with p s || match s with [] => false | _ :: s' => occursb p s' end.
Proof. destruct s; reflexivity. Qed.

Lemma occurs_occursb p s : occurs p s -> occursb p s = true.
Proof.
  intros (pre & suf & ->); induction pre as [|c pre IH]; simpl.
  - rewrite occursb_unfold, starts_with_self; reflexivity.
  - rewrite IH, orb_true_r; reflexivity.
Qed.

Example substitute_tricky :
  substitute net192 tricky_template = lit "192.168.192.168.192.2" /\
  spec_substitute net192 tricky_template = lit "192.168.192.168.2.2".
Proof. split; reflexivity. Qed.

(** C5 as stated fails: with counter 192 the host address [192.168.192.1]
    followed by the template's [68.2.2] forms a new [192.168.2.2], which
    the second replacement then rewrites; a single substitution of the
    template's placeholders would have left those bytes alone. *)
Lemma seeder_substitution_counterexample :
  ~ (forall ci W tmp net p data cwd,
       w_cwd W = Some cwd ->
       In (EvIo (IoWriteAll p data)) (snd (prepare W ci tmp net)) ->
       data = spec_substitute net (w_file W (template_file ci cwd))).
Proof.
  intros H.
  specialize (H ClearCloudInit tricky_world (lit "/tmp/rhfw.a1b2") net192
    (templated_file ClearCloudInit (lit "/tmp/rhfw.a1b2"))
    (substitute net192 tricky_template) (lit "/src/fw") eq_refl).
  assert (Hin : In (EvIo (IoWriteAll (templated_file ClearCloudInit (lit "/tmp/rhfw.a1b2"))
                                     (substitute net192 tricky_template)))
                   (snd (prepare tricky_world ClearCloudInit (lit "/tmp/rhfw.a1b2") net192))).
  { vm_compute; repeat (solve [left; reflexivity] || right). }
  specialize (H Hin); vm_compute in H; discriminate H.
Qed.

(** C5, amended: the only file a seeder writes is its templated file, and
    the content written is the template after three successive
    replacements: every occurrence of [192.168.2.1] by the host address,
    then every occurrence of [192.168.2.2] in that result by the guest
    address, then every occurrence of [12:34:56:78:90:ab] in that result by
    the MAC address.  In particular a template with no placeholder is
    written unchanged. *)
Theorem seeder_templated_file_contents (ci : CloudInit) (W : World) (tmp : rstr)
  (net : GuestNetworkConfig) :
  (forall p data, In (EvIo (IoWriteAll p data)) (snd (prepare W ci tmp net)) ->
     exists cwd, w_cwd W = Some cwd /\ p = templated_file ci tmp /\
     data = replace (replace (replace (w_file W (template_file ci cwd))
                                (lit "192.168.2.1") (host_ip net))
                       (lit "192.168.2.2") (guest_ip net))
              (lit "12:34:56:78:90:ab") (guest_mac net)) /\
  (forall s, ~ occurs (lit "192.168.2.1") s -> ~ occurs (lit "192.168.2.2") s ->
     ~ occurs (lit "12:34:56:78:90:ab") s -> substitute net s = s).
Proof.
  split.
  - intros p data H; exact (prepare_write ci W tmp net p data H).
  - intros s H1 H2 H3; unfold substitute.
    rewrite (replace_absent s), (replace_absent s), (replace_absent s);
      solve [reflexivity | assumption | intros Hn; discriminate Hn].
Qed.

Lemma seeder_templated_file_contents_witness :
  (exists cwd, w_cwd tricky_world = Some cwd /\
     templated_file UbuntuCloudInit (lit "/tmp/rhfw.a1b2") =
       templated_file UbuntuCloudInit (lit "/tmp/rhfw.a1b2") /\
     lit "192.168.192.168.192.2" =
       replace (replace (replace (w_file tricky_world (template_file UbuntuCloudInit cwd))
                  (lit "192.168.2.1") (host_ip net192))
               (lit "192.168.2.2") (guest_ip net192))
         (lit "12:34:56:78:90:ab") (guest_mac net192)) /\
  substitute net192 (lit "gateway4: 10.0.2.2") = lit "gateway4: 10.0.2.2".
Proof.
  split.
  - apply (proj1 (seeder_templated_file_contents UbuntuCloudInit tricky_world
                    (lit "/tmp/rhfw.a1b2") net192)).
    vm_compute; repeat (solve [left; reflexivity] || right).
  - apply (proj2 (seeder_templated_file_contents UbuntuCloudInit tricky_world
                    (lit "/tmp/rhfw.a1b2") net192));
      intros H; apply occurs_occursb in H; vm_compute in H; discriminate H.
Defined.

(** ** Resource life cycle of [test_boot] *)

Lemma lifecycle_app t1 t2 : lifecycle (t1 ++ t2) = lifecycle t1 ++ lifecycle t2.
Proof. apply flat_map_app. Qed.

Lemma strip_prefix_app p s : strip_prefix p (p ++ s) = Some s.
Proof.
  induction p as [|c p IH]; [reflexivity|]; simpl.
  destruct (ascii_dec c c) as [_|n]; [exact IH|congruence].
Qed.

Lemma strip_suffix_app p s : strip_suffix p (s ++ p) = Some s.
Proof.
  unfold strip_suffix; rewrite rev_app_distr, strip_prefix_app; simpl.
  rewrite rev_involutive; reflexivity.
Qed.

Lemma classify_tap_add n :
  classify (EvRun (bash (lit "sudo ip tuntap add name " ++ n ++ lit " mode tap")))
  = [LcTapAdd n].
Proof.
  unfold classify, tap_command, bash; simpl rstr_eqb; cbv iota beta.
  rewrite strip_prefix_app, strip_suffix_app; reflexivity.
Qed.

Lemma classify_tap_del n :
  classify (EvRun (bash (lit "sudo ip tuntap de name " ++ n ++ lit " mode tap")))
  = [LcTapDel n].
Proof.
  unfold classify, tap_command, bash; simpl rstr_eqb; cbv iota beta.
  rewrite strip_prefix_app, strip_suffix_app; reflexivity.
Qed.

Lemma lc_prepare W ci tmp net : lifecycle (snd (prepare W ci tmp net)) = [].
Proof.
  destruct ci; unfold prepare, clear_prepare, ubuntu_prepare, read_file,
    write_file, io, run_output, unwrap, emit, expect;
    destruct (w_cwd W);
    repeat (simpl; match goal with
                   | |- context [w_io W ?o] => destruct (w_io W o)
                   | |- context [w_proc W ?a] => destruct (w_proc W a)
                   end);
    reflexivity.
Qed.

Lemma lc_prepare_os_disk W tmp image : lifecycle (snd (prepare_os_disk W tmp image)) = [].
Proof.
  unfold prepare_os_disk, io, unwrap, emit, expect; destruct (w_home W); simpl;
    [destruct (w_io W _)|]; reflexivity.
Qed.

Lemma lc_bind {A B} (m : M A) (f : A -> M B) :
  lifecycle (snd (bind m f)) =
  lifecycle (snd m) ++ match fst m with Some a => lifecycle (snd (f a)) | None => [] end.
Proof.
  destruct m as [[a|] t]; simpl.
  - destruct (f a); simpl; apply lifecycle_app.
  - rewrite app_nil_r; reflexivity.
Qed.

Lemma lc_run_status W argv : lifecycle (snd (run_status_assert W argv)) = classify (EvRun argv).
Proof.
  unfold run_status_assert, emit, expect; rewrite lc_bind; simpl fst.
  destruct (w_proc W argv) as [|[[|p|p]|]]; simpl; rewrite ?app_nil_r; reflexivity.
Qed.

Lemma lc_prepare_tap W net : lifecycle (snd (prepare_tap W net)) = [LcTapAdd (tap_name net)].
Proof.
  unfold prepare_tap; rewrite lc_bind, lc_run_status, classify_tap_add.
  destruct (fst (run_status_assert W _)) as [[]|]; [|reflexivity].
  rewrite lc_bind, lc_run_status.
  destruct (fst (run_status_assert W _)) as [[]|]; rewrite ?lc_run_status;
    reflexivity.
Qed.

Lemma lc_cleanup_tap W net : lifecycle (snd (cleanup_tap W net)) = [LcTapDel (tap_name net)].
Proof. unfold cleanup_tap; rewrite lc_run_status, classify_tap_del; reflexivity. Qed.

Lemma lc_spawn W h os ci net : lifecycle (snd (spawn W h os ci net)) = [LcSpawn].
Proof.
  destruct h; unfold spawn, spawn_child, emit, expect; rewrite lc_bind; simpl;
    [destruct (w_spawn W (spawn_ch_argv os ci net))
    |destruct (w_spawn W (spawn_qemu_argv os ci net))]; reflexivity.
Qed.

Lemma lc_ssh_attempt a ip command s : lifecycle (snd (ssh_attempt a ip command s)) = [].
Proof.
  destruct a as [con sn hs ua au ch ex rd r cl wc]; unfold ssh_attempt; simpl.
  destruct con, sn, hs, ua, au, ch, ex; reflexivity.
Qed.

Lemma lc_ssh_loop W ip command retries timeout fuel : forall counter s,
  lifecycle (snd (ssh_loop W ip command retries timeout fuel counter s)) = [].
Proof.
  induction fuel as [|fuel IH]; intros counter s; [reflexivity|].
  cbn [ssh_loop]; rewrite lc_bind, lc_ssh_attempt; simpl app.
  destruct (fst (ssh_attempt _ _ _ _)) as [[[] s']|]; [reflexivity| |reflexivity].
  unfold u8_of_nat.
  destruct (counter + 1 <? 256); [rewrite bind_ret_l|reflexivity].
  destruct (retries <=? counter + 1); [reflexivity|].
  destruct (timeout * (counter + 1) <? 256); [rewrite bind_ret_l|reflexivity].
  specialize (IH (counter + 1) s'); destruct (ssh_loop _ _ _ _ _ fuel _ _); exact IH.
Qed.

Lemma fst_bind_inv {A B} (m : M A) (f : A -> M B) b :
  fst (bind m f) = Some b -> exists a, fst m = Some a /\ fst (f a) = Some b.
Proof.
  destruct m as [[a|] t]; simpl; [|discriminate].
  destruct (f a) eqn:E; simpl; intros H; exists a; rewrite E; auto.
Qed.

Lemma lc_bind_some {A B} (m : M A) (f : A -> M B) a :
  fst m = Some a -> lifecycle (snd (bind m f)) = lifecycle (snd m) ++ lifecycle (snd (f a)).
Proof. intros H; rewrite lc_bind, H; reflexivity. Qed.

Lemma lc_expect b : lifecycle (snd (expect b)) = [].
Proof. destruct b; reflexivity. Qed.

Lemma lc_unwrap {A} (o : option A) : lifecycle (snd (unwrap o)) = [].
Proof. destruct o; reflexivity. Qed.

(** Splits off the first computation of a successful sequence. *)
Ltac run_step H :=
  let a := fresh "a" in let Ha := fresh "Ha" in let H' := fresh "H" in
  destruct (fst_bind_inv _ _ _ H) as (a & Ha & H'); clear H; rename H' into H;
  rewrite (lc_bind_some _ _ _ Ha); cbv beta zeta in H |- *.

(** C8: in a run of [test_boot] that completes, the life-cycle events are,
    in order: the creation of one tap device, the spawn of the VMM, its
    kill, the wait for it, and the deletion of the tap device created, under
    the same name. *)
Theorem test_boot_lifecycle (W : World) (image_name : string) (ci : CloudInit)
  (h : HypervisorSpawn) :
  fst (test_boot W image_name ci h) = Some tt ->
  lifecycle (snd (test_boot W image_name ci h)) =
    [LcTapAdd (tap_name (test_boot_network W)); LcSpawn; LcKill; LcWait;
     LcTapDel (tap_name (test_boot_network W))].
Proof.
  intros H; unfold test_boot in *.
  run_step H; rewrite lc_unwrap.
  run_step H; rewrite lc_prepare.
  run_step H; rewrite lc_prepare_os_disk.
  run_step H; rewrite lc_prepare_tap.
  run_step H; rewrite lc_spawn.
  run_step H.
  run_step H; unfold ssh_command; rewrite lc_ssh_loop.
  match type of H with
  | context [match ?r with Ok _ => _ | Err _ => _ end] =>
      destruct r as [out|e]; [|discriminate H]
  end.
  run_step H.
  run_step H; rewrite lc_expect.
  run_step H.
  run_step H; rewrite lc_expect.
  rewrite lc_cleanup_tap; reflexivity.
Qed.

Lemma test_boot_lifecycle_witness :
  let W := sample_world [] all_succeed (fun _ => ok_attempt) in
  fst (test_boot W "focal-server-cloudimg-amd64-raw.img" UbuntuCloudInit spawn_ch) = Some tt /\
  lifecycle (snd (test_boot W "focal-server-cloudimg-amd64-raw.img" UbuntuCloudInit spawn_ch)) =
    [LcTapAdd (lit "fwtap6"); LcSpawn; LcKill; LcWait; LcTapDel (lit "fwtap6")].
Proof.
  intros W.
  assert (Hok : fst (test_boot W "focal-server-cloudimg-amd64-raw.img" UbuntuCloudInit spawn_ch)
                = Some tt) by (vm_compute; reflexivity).
  split; [exact Hok|].
  exact (test_boot_lifecycle W _ _ _ Hok).
Defined.


(** ** Counter wrap-around *)

Lemma as_u8_to_nat v : Byte.to_nat (as_u8 v) = v mod 256.
Proof.
  unfold as_u8. destruct (Byte.of_nat (v mod 256)) eqn:E.
  - apply Byte.to_of_nat; exact E.
  - apply Byte.of_nat_None_iff in E. pose proof (Nat.mod_upper_bound v 256). lia.
Qed.

Lemma as_u8_eq v1 v2 : as_u8 v1 = as_u8 v2 <-> v1 mod 256 = v2 mod 256.
Proof.
  split.
  - intros H. rewrite <- !as_u8_to_nat, H. reflexivity.
  - intros H. unfold as_u8. rewrite H. reflexivity.
Qed.

Lemma tap_name_eq c1 c2 r1 r2 :
  tap_name (GuestNetworkConfig_new c1 r1) = tap_name (GuestNetworkConfig_new c2 r2) <-> c1 = c2.
Proof.
  split.
  - simpl; intros H. apply fmt_u8_inj, (app_inv_head (lit "fwtap")), H.
  - intros ->. reflexivity.
Qed.

Lemma subnet_eq c1 c2 r1 r2 :
  subnet24 (host_ip (GuestNetworkConfig_new c1 r1)) =
    subnet24 (host_ip (GuestNetworkConfig_new c2 r2)) <-> c1 = c2.
Proof.
  rewrite !subnet24_host. split.
  - intros H. injection H as H. apply fmt_u8_inj, H.
  - intros ->. reflexivity.
Qed.

Lemma mod_close a b k :
  k <= a -> k <= b -> a < k + 256 -> b < k + 256 -> a mod 256 = b mod 256 -> a = b.
Proof.
  intros H1 H2 H3 H4 H.
  pose proof (Nat.div_mod_eq a 256). pose proof (Nat.div_mod_eq b 256).
  lia.
Qed.

(** A function of the counter that identifies exactly the counters
    congruent modulo 256 is injective on [n] successive counters iff
    [n <= 256]. *)
Lemma nodup_mod_256 {B} (f : nat -> B) start n :
  (forall v1 v2, f v1 = f v2 <-> v1 mod 256 = v2 mod 256) ->
  NoDup (map f (seq start n)) <-> n <= 256.
Proof.
  intros Hf. split.
  - intros Hn. destruct (Nat.le_gt_cases n 256) as [Hle|Hgt]; [exact Hle|exfalso].
    replace n with (S (n - 1)) in Hn by lia. simpl in Hn.
    apply NoDup_cons_iff in Hn as [Hnin _]. apply Hnin.
    replace (f start) with (f (start + 256)).
    + apply in_map, in_seq. lia.
    + apply Hf. replace (start + 256) with (start + 1 * 256) by lia.
      apply Nat.Div0.mod_add.
  - intros Hle. apply NoDup_map_NoDup_ForallPairs; [|apply seq_NoDup].
    intros a b Ha Hb Hab. apply in_seq in Ha, Hb. apply Hf in Hab.
    apply (mod_close a b start); lia.
Qed.

Lemma taps_seq start n rnd :
  taps start n rnd = map (fun v => tap_name (GuestNetworkConfig_new (as_u8 v) (rnd v))) (seq start n).
Proof. unfold taps, identities. rewrite map_map. reflexivity. Qed.

Lemma subnets_seq start n rnd :
  subnets start n rnd =
    map (fun v => subnet24 (host_ip (GuestNetworkConfig_new (as_u8 v) (rnd v)))) (seq start n).
Proof. unfold subnets, identities. rewrite map_map. reflexivity. Qed.

Lemma nodupb_NoDup {A} dec (l : list A) : nodupb dec l = true -> NoDup l.
Proof.
  induction l as [|x l IH]; simpl; intros H; [constructor|].
  apply andb_true_iff in H as [H1 H2]. constructor; [|exact (IH H2)].
  intros Hin. apply negb_true_iff in H1.
  assert (existsb (fun y => if dec x y then true else false) l = true) by
    (apply existsb_exists; exists x; split; [exact Hin|]; destruct (dec x x); congruence).
  congruence.
Qed.

(** C10 (counterexample): 256 identities generated in one process, from the
    starting counter 6 up to 261, still have pairwise different interface
    names and pairwise different /24 networks; only the 257th identity
    (counter 262) repeats the interface name of the first. So the
    guarantees do not fail once 256 identities have been generated. *)
Lemma identities_256_distinct :
  NoDup (taps 6 256 (fun _ => zero_mac)) /\
  NoDup (subnets 6 256 (fun _ => zero_mac)) /\
  nth 256 (taps 6 257 (fun _ => zero_mac)) [] = nth 0 (taps 6 257 (fun _ => zero_mac)) [].
Proof.
  split; [apply (nodupb_NoDup rstr_dec); vm_compute; reflexivity|].
  split; [apply (nodupb_NoDup subnet_dec); vm_compute; reflexivity|].
  vm_compute; reflexivity.
Qed.

(** C10 (amended): the orchestrator passes [COUNTER as u8] to
    [GuestNetworkConfig::new], so two counter values congruent modulo 256
    give the same host address, guest address and interface name; the
    interface names, and the /24 networks, of [n] identities generated from
    successive counter values are pairwise different exactly when
    [n <= 256]. *)
Theorem test_boot_network_wraps (W1 W2 : World) (start n : nat) (rnd : nat -> mac6) :
  (w_counter W1 mod 256 = w_counter W2 mod 256 ->
     host_ip (test_boot_network W1) = host_ip (test_boot_network W2) /\
     guest_ip (test_boot_network W1) = guest_ip (test_boot_network W2) /\
     tap_name (test_boot_network W1) = tap_name (test_boot_network W2)) /\
  (NoDup (taps start n rnd) <-> n <= 256) /\
  (NoDup (subnets start n rnd) <-> n <= 256).
Proof.
  split; [|split].
  - intros H. apply as_u8_eq in H. unfold test_boot_network. rewrite H.
    repeat split.
  - rewrite taps_seq. apply nodup_mod_256. intros v1 v2.
    rewrite tap_name_eq. apply as_u8_eq.
  - rewrite subnets_seq. apply nodup_mod_256. intros v1 v2.
    rewrite subnet_eq. apply as_u8_eq.
Qed.

Lemma test_boot_network_wraps_witness :
  6 mod 256 = 262 mod 256 /\
  host_ip (test_boot_network (sample_world [] all_succeed (fun _ => ok_attempt))) =
    host_ip (test_boot_network
      {| w_tempdir := w_tempdir (sample_world [] all_succeed (fun _ => ok_attempt));
         w_cwd := w_cwd (sample_world [] all_succeed (fun _ => ok_attempt));
         w_home := w_home (sample_world [] all_succeed (fun _ => ok_attempt));
         w_io := w_io (sample_world [] all_succeed (fun _ => ok_attempt));
         w_file := w_file (sample_world [] all_succeed (fun _ => ok_attempt));
         w_proc := w_proc (sample_world [] all_succeed (fun _ => ok_attempt));
         w_spawn := w_spawn (sample_world [] all_succeed (fun _ => ok_attempt));
         w_counter := 262;
         w_rand := w_rand (sample_world [] all_succeed (fun _ => ok_attempt));
         w_ssh := w_ssh (sample_world [] all_succeed (fun _ => ok_attempt));
         w_kill := w_kill (sample_world [] all_succeed (fun _ => ok_attempt));
         w_wait := w_wait (sample_world [] all_succeed (fun _ => ok_attempt)) |}).
Proof.
  split; [reflexivity|].
  apply (proj1 (test_boot_network_wraps (sample_world [] all_succeed (fun _ => ok_attempt)) _ 6 0
           (fun _ => zero_mac))).
  reflexivity.
Defined.

(** ** More on [ssh_command] *)

Lemma in_bind {A B} (m : M A) (f : A -> M B) e :
  In e (snd (bind m f)) -> In e (snd m) \/ exists a, fst m = Some a /\ In e (snd (f a)).
Proof.
  destruct m as [[a|] t]; simpl; [|auto].
  destruct (f a) as [r t'] eqn:E; simpl; intros H.
  apply in_app_or in H as [H|H]; [left; exact H|].
  right; exists a; rewrite E; split; [reflexivity|exact H].
Qed.



Lemma ssh_attempt_events a ip command s e :
  In e (snd (ssh_attempt a ip command s)) -> e = EvConnect (ip ++ lit ":22") \/ e = EvExec command.
Proof.
  destruct a as [con sn hs ua au ch ex rd r cl wc]; unfold ssh_attempt; simpl.
  destruct con as [[]|], sn, hs as [[]|], ua as [[]|], au, ch as [[]|], ex as [[]|];
    simpl; intros H; intuition.
Qed.

Lemma ssh_loop_ok_inv W ip command fuel : forall counter s out,
  counter + fuel = 6 ->
  fst (ssh_loop W ip command 6 10 fuel counter s) = Some (Ok out) ->
  exists n, counter <= n < 6 /\
    (forall m, counter <= m < n -> exists e, failing_step (w_ssh W m) e) /\
    steps_succeed (w_ssh W n) /\ out = s ++ a_read_data (w_ssh W n).
Proof.
  induction fuel as [|fuel IH]; intros counter s out Hc H; [discriminate H|].
  cbn [ssh_loop] in H.
  apply fst_bind_inv in H as ([r s'] & Ha & H).
  destruct r as [[]|e].
  - simpl in H; injection H as <-.
    apply ssh_attempt_ok in Ha as [Hst ->].
    exists counter; split; [lia|]; split; [intros m Hm; lia|auto].
  - apply ssh_attempt_err in Ha as [Hf ->].
    rewrite u8_of_nat_small in H by lia; rewrite bind_ret_l in H.
    destruct (6 <=? counter + 1) eqn:E; [discriminate H|]; apply Nat.leb_gt in E.
    rewrite u8_of_nat_small in H by lia; rewrite bind_ret_l in H.
    unfold emit in H; rewrite bind_some in H; cbn [fst] in H.
    destruct (IH (counter + 1) s out) as (n & Hn & Hpre & Hs & Ho); [lia|exact H|].
    exists n; split; [lia|]; split; [|auto].
    intros m Hm; destruct (Nat.eq_dec m counter) as [->|Hne];
      [exists e; exact Hf|apply Hpre; lia].
Qed.


Lemma ssh_loop_events W ip command fuel : forall counter s e,
  counter + fuel = 6 ->
  In e (snd (ssh_loop W ip command 6 10 fuel counter s)) ->
  e = EvConnect (ip ++ lit ":22") \/ e = EvExec command \/
  exists n, counter < n <= 5 /\ e = EvSleep (10 * n).
Proof.
  induction fuel as [|fuel IH]; intros counter s e Hc H; [destruct H|].
  cbn [ssh_loop] in H.
  apply in_bind in H as [H|([r s'] & Ha & H)].
  - apply ssh_attempt_events in H as [H|H]; auto.
  - destruct r as [[]|e']; [destruct H|].
    rewrite u8_of_nat_small in H by lia; rewrite bind_ret_l in H.
    destruct (6 <=? counter + 1) eqn:E; [destruct H|]; apply Nat.leb_gt in E.
    rewrite u8_of_nat_small in H by lia; rewrite bind_ret_l in H.
    unfold emit in H; rewrite bind_some in H; cbn [snd] in H.
    destruct H as [H|H].
    + right; right; exists (counter + 1); split; [lia|auto].
    + destruct (IH (counter + 1) s' e ltac:(lia) H) as [He|[He|(n & Hn & He)]]; auto.
      right; right; exists n; split; [lia|exact He].
Qed.

(** [ssh_command] returns [Ok out] only when some attempt [n] within the
    retry budget got through every step after all earlier attempts failed,
    and then [out] is exactly the output read in attempt [n]: nothing read
    by a failed attempt ends up in the result. *)
Theorem ssh_command_ok_output (W : World) (ip command out : rstr) :
  fst (ssh_command W ip command) = Some (Ok out) ->
  exists n, n < DEFAULT_SSH_RETRIES /\
    (forall m, m < n -> exists e, failing_step (w_ssh W m) e) /\
    steps_succeed (w_ssh W n) /\ out = a_read_data (w_ssh W n).
Proof.
  intros H; destruct (ssh_loop_ok_inv W ip command 6 0 [] out eq_refl H)
    as (n & Hn & Hpre & Hs & Ho).
  exists n; split; [unfold DEFAULT_SSH_RETRIES; lia|]; split; [|auto].
  intros m Hm; apply Hpre; lia.
Qed.

Lemma ssh_command_ok_output_witness :
  exists n, n < DEFAULT_SSH_RETRIES /\
    (forall m, m < n -> exists e,
       failing_step (w_ssh (sample_world [] all_succeed
                             (fun n => if n <? 3 then refused_attempt else ok_attempt)) m) e) /\
    steps_succeed (w_ssh (sample_world [] all_succeed
                           (fun n => if n <? 3 then refused_attempt else ok_attempt)) n) /\
    lit "Connection closed" =
      a_read_data (w_ssh (sample_world [] all_succeed
                            (fun n => if n <? 3 then refused_attempt else ok_attempt)) n).
Proof.
  apply (ssh_command_ok_output _ (lit "192.168.6.2") (lit "uptime")).
  vm_compute; reflexivity.
Defined.



(** Everything [ssh_command ip command] does is connecting to port 22 of
    [ip], executing [command], and sleeping [10 * n] seconds for some
    [1 <= n <= 5]. *)
Theorem ssh_command_events (W : World) (ip command : rstr) (e : event) :
  In e (snd (ssh_command W ip command)) ->
  e = EvConnect (ip ++ lit ":22") \/ e = EvExec command \/
  exists n, 1 <= n <= 5 /\ e = EvSleep (DEFAULT_SSH_TIMEOUT * n).
Proof.
  intros H; destruct (ssh_loop_events W ip command 6 0 [] e eq_refl H)
    as [He|[He|(n & Hn & He)]]; auto.
  right; right; exists n; split; [lia|exact He].
Qed.

Lemma ssh_command_events_witness :
  EvSleep 50 = EvConnect (lit "192.168.6.2" ++ lit ":22") \/
  EvSleep 50 = EvExec (lit "uptime") \/
  exists n, 1 <= n <= 5 /\ EvSleep 50 = EvSleep (DEFAULT_SSH_TIMEOUT * n).
Proof.
  apply (ssh_command_events (sample_world [] all_succeed (fun _ => refused_attempt))).
  vm_compute; repeat (solve [left; reflexivity] || right).
Defined.

(** ** More on the seeders *)

Lemma prepare_result W ci tmp net p :
  fst (prepare W ci tmp net) = Some p -> p = join tmp "cloudinit".
Proof.
  destruct ci; unfold prepare, clear_prepare, ubuntu_prepare, read_file,
    write_file, io, run_output, unwrap, emit, expect;
    destruct (w_cwd W);
    repeat (simpl; match goal with
                   | |- context [w_io W ?o] => destruct (w_io W o)
                   | |- context [w_proc W ?a] => destruct (w_proc W a)
                   end);
    simpl; intros H; try discriminate H; injection H as <-; reflexivity.
Qed.

Ltac close_prefix :=
  unfold prefix_of, join; eexists; rewrite <- ?app_assoc; f_equal; simpl; reflexivity.

Lemma prepare_events W ci tmp net e :
  In e (snd (prepare W ci tmp net)) ->
  match e with
  | EvIo (IoCreateDirAll p) | EvIo (IoCreate p) | EvIo (IoWriteAll p _) =>
      prefix_of (tmp ++ lit "/cloud-init/") p
  | EvIo (IoCopy src dst) =>
      (exists cwd, w_cwd W = Some cwd /\ prefix_of (cwd ++ lit "/resources/cloud-init/") src) /\
      prefix_of (tmp ++ lit "/cloud-init/") dst
  | EvIo (IoOpen p) | EvIo (IoReadToString p) =>
      exists cwd, w_cwd W = Some cwd /\ p = template_file ci cwd
  | EvRun argv =>
      exists tool rest, argv = tool :: rest /\ (tool = lit "mkdosfs" \/ tool = lit "mcopy") /\
        In (join tmp "cloudinit") rest
  | _ => False
  end.
Proof.
  destruct (w_cwd W) as [cwd|] eqn:Ec;
  destruct ci; unfold prepare, clear_prepare, ubuntu_prepare, read_file,
    write_file, io, run_output, unwrap, emit, expect; rewrite Ec;
    repeat (simpl; match goal with
                   | |- context [w_io W ?o] => destruct (w_io W o)
                   | |- context [w_proc W ?a] => destruct (w_proc W a)
                   end);
    simpl; intros H; repeat destruct H as [H|H]; try contradiction; subst e;
    first
      [ close_prefix
      | split; [exists cwd; split; [reflexivity|close_prefix]|close_prefix]
      | exists cwd; split; reflexivity
      | eexists; eexists; split; [reflexivity|];
        split; [solve [left; reflexivity | right; reflexivity]|];
        repeat (solve [left; reflexivity] || right) ].
Qed.

(** Both seeders touch only their own corners of the file system: every
    directory and file they create or write, and every copy destination,
    lies under [<tmp>/cloud-init/]; they copy only from
    [<cwd>/resources/cloud-init/], read only their template, run only
    [mkdosfs] and [mcopy] on [<tmp>/cloudinit], and do nothing else
    (no spawn, no network, no sleep). When they return, they return
    [<tmp>/cloudinit]. *)
Theorem prepare_confined (ci : CloudInit) (W : World) (tmp : rstr) (net : GuestNetworkConfig) :
  (forall e, In e (snd (prepare W ci tmp net)) ->
   match e with
   | EvIo (IoCreateDirAll p) | EvIo (IoCreate p) | EvIo (IoWriteAll p _) =>
       prefix_of (tmp ++ lit "/cloud-init/") p
   | EvIo (IoCopy src dst) =>
       (exists cwd, w_cwd W = Some cwd /\ prefix_of (cwd ++ lit "/resources/cloud-init/") src) /\
       prefix_of (tmp ++ lit "/cloud-init/") dst
   | EvIo (IoOpen p) | EvIo (IoReadToString p) =>
       exists cwd, w_cwd W = Some cwd /\ p = template_file ci cwd
   | EvRun argv =>
       exists tool rest, argv = tool :: rest /\ (tool = lit "mkdosfs" \/ tool = lit "mcopy") /\
         In (join tmp "cloudinit") rest
   | _ => False
   end) /\
  (forall p, fst (prepare W ci tmp net) = Some p -> p = join tmp "cloudinit").
Proof.
  split; [intros e; apply prepare_events | intros p; apply prepare_result].
Qed.

Lemma prepare_confined_witness :
  (exists cwd, w_cwd (sample_world [] all_succeed (fun _ => ok_attempt)) = Some cwd /\
     prefix_of (cwd ++ lit "/resources/cloud-init/") (lit "/src/fw/resources/cloud-init/ubuntu/meta-data")) /\
  prefix_of (lit "/tmp/rhfw.a1b2" ++ lit "/cloud-init/") (lit "/tmp/rhfw.a1b2/cloud-init/ubuntu/meta-data").
Proof.
  apply (proj1 (prepare_confined UbuntuCloudInit (sample_world [] all_succeed (fun _ => ok_attempt))
                  (lit "/tmp/rhfw.a1b2") (GuestNetworkConfig_new Byte.x06 zero_mac))
           (EvIo (IoCopy (lit "/src/fw/resources/cloud-init/ubuntu/meta-data")
                         (lit "/tmp/rhfw.a1b2/cloud-init/ubuntu/meta-data")))).
  vm_compute; repeat (solve [left; reflexivity] || right).
Defined.

(** ** More on the tap device *)

Lemma run_status_assert_eq W argv :
  run_status_assert W argv = (if success (w_proc W argv) then Some tt else None, [EvRun argv]).
Proof.
  unfold run_status_assert, emit, expect.
  destruct (w_proc W argv) as [|[[|p|p]|]]; reflexivity.
Qed.

(** [prepare_tap] runs its commands in order, one at a time and each at
    most once: its trace is the first [k] of the three commands, where every
    command before the [k]-th exited successfully and, if [k < 3], the
    [k]-th did not; it returns exactly when all three succeed.
    [cleanup_tap] runs the deletion command once and returns exactly when
    it succeeds. *)
Theorem prepare_tap_sequence (W : World) (net : GuestNetworkConfig) :
  (exists k, 1 <= k <= 3 /\
     snd (prepare_tap W net) = map EvRun (firstn k (tap_cmds net)) /\
     (forall j, S j < k -> success (w_proc W (nth j (tap_cmds net) [])) = true) /\
     (k < 3 -> success (w_proc W (nth (k - 1) (tap_cmds net) [])) = false)) /\
  (fst (prepare_tap W net) = Some tt <->
     forall j, j < 3 -> success (w_proc W (nth j (tap_cmds net) [])) = true) /\
  (fst (cleanup_tap W net) = Some tt <-> success (w_proc W (tap_del_cmd net)) = true) /\
  snd (cleanup_tap W net) = [EvRun (tap_del_cmd net)].
Proof.
  unfold prepare_tap, cleanup_tap, tap_cmds, tap_del_cmd; rewrite !run_status_assert_eq.
  set (c0 := bash (lit "sudo ip tuntap add name " ++ tap_name net ++ lit " mode tap")).
  set (c1 := bash (lit "sudo ip addr add " ++ host_ip net ++ lit "/24 dev " ++ tap_name net)).
  set (c2 := bash (lit "sudo ip link set dev " ++ tap_name net ++ lit " up")).
  set (c3 := bash (lit "sudo ip tuntap de name " ++ tap_name net ++ lit " mode tap")).
  split; [|split; [|split]].
  - destruct (success (w_proc W c0)) eqn:E0;
      [destruct (success (w_proc W c1)) eqn:E1;
        [exists 3|exists 2]|exists 1];
      (split; [lia|]); simpl; (split; [reflexivity|]);
      (split; [intros j Hj; destruct j as [|[|j]]; simpl; try lia; assumption
              |intros Hk; simpl; try lia; assumption]).
  - destruct (success (w_proc W c0)) eqn:E0, (success (w_proc W c1)) eqn:E1,
      (success (w_proc W c2)) eqn:E2; simpl;
    (split;
      [ intros H j Hj; destruct j as [|[|[|j]]]; simpl; try lia; congruence
      | intros H; pose proof (H 0 ltac:(lia)); pose proof (H 1 ltac:(lia));
        pose proof (H 2 ltac:(lia)); simpl in *; congruence ]).
  - destruct (success (w_proc W c3)); simpl; split; intros H; congruence.
  - reflexivity.
Qed.

(** ** Reading back identities *)

Lemma fmt_02x_parse_colon b rest :
  parse_mac (fmt_02x b ++ colon ++ rest) = option_map (cons (Byte.to_nat b)) (parse_mac rest).
Proof. destruct b; reflexivity. Qed.

Lemma fmt_02x_parse_end b : parse_mac (fmt_02x b) = Some [Byte.to_nat b].
Proof. destruct b; reflexivity. Qed.

(** The rendered MAC address reads back as six octets: [0x2e] followed by
    the last five random bytes, so no random byte is lost or altered by
    the rendering. *)
Theorem new_mac_roundtrip (c : Byte.byte) (rnd : mac6) :
  parse_mac (guest_mac (GuestNetworkConfig_new c rnd)) =
    Some [0x2e; Byte.to_nat (m1 rnd); Byte.to_nat (m2 rnd); Byte.to_nat (m3 rnd);
          Byte.to_nat (m4 rnd); Byte.to_nat (m5 rnd)].
Proof.
  unfold GuestNetworkConfig_new; cbn [guest_mac set_m0 m0 m1 m2 m3 m4 m5].
  rewrite !fmt_02x_parse_colon, fmt_02x_parse_end; reflexivity.
Qed.

Lemma fmt_u8_length b : 1 <= List.length (fmt_u8 b) <= 3.
Proof. destruct b; simpl; lia. Qed.

Lemma fmt_u8_numeral b : dec_numeral (fmt_u8 b) = true.
Proof. destruct b; reflexivity. Qed.

(** The host and guest addresses are dotted quads [192.168.<d>.1] and
    [192.168.<d>.2] and the interface name is [fwtap<d>], for one canonical
    decimal numeral [d] (digits only, no leading zero) of one to three
    digits whose value is the counter; so the
    interface name has at most 8 characters, within the kernel's 15. *)
Theorem new_identity_readback (c : Byte.byte) (rnd : mac6) :
  exists d,
    split_dots (host_ip (GuestNetworkConfig_new c rnd)) = [lit "192"; lit "168"; d; lit "1"] /\
    split_dots (guest_ip (GuestNetworkConfig_new c rnd)) = [lit "192"; lit "168"; d; lit "2"] /\
    strip_prefix (lit "fwtap") (tap_name (GuestNetworkConfig_new c rnd)) = Some d /\
    dec_numeral d = true /\ dec_value d = Byte.to_nat c /\ 1 <= List.length d <= 3 /\
    List.length (tap_name (GuestNetworkConfig_new c rnd)) <= 8.
Proof.
  exists (fmt_u8 c).
  rewrite host_ip_shape, guest_ip_shape, !split_dots_ip by (intros Hn; discriminate Hn).
  split; [reflexivity|]; split; [reflexivity|].
  split; [apply strip_prefix_app|].
  split; [apply fmt_u8_numeral|].
  split; [apply fmt_u8_value|].
  pose proof (fmt_u8_length c).
  split; [exact H|]; cbn [tap_name GuestNetworkConfig_new]; rewrite length_app; simpl; lia.
Qed.

(** ** More on [test_boot] *)

Lemma lc_emit e : lifecycle (snd (emit e)) = classify e.
Proof. unfold lifecycle; simpl; apply app_nil_r. Qed.

(** Whatever the outside world does, the resource life cycle of a run of
    [test_boot] is an initial segment of: create the tap device, spawn the
    VMM, kill it, wait for it, delete the tap device. No step is taken out
    of order or twice, and on any failure the remaining steps are skipped. *)
Theorem test_boot_lifecycle_prefix (W : World) (image_name : string) (ci : CloudInit)
  (h : HypervisorSpawn) :
  exists k, k <= 5 /\
    lifecycle (snd (test_boot W image_name ci h)) =
      firstn k [LcTapAdd (tap_name (test_boot_network W)); LcSpawn; LcKill; LcWait;
                LcTapDel (tap_name (test_boot_network W))].
Proof.
  unfold test_boot.
  rewrite lc_bind, lc_unwrap; destruct (fst (unwrap (w_tempdir W))) as [tmp|];
    [|exists 0; split; [lia|reflexivity]].
  rewrite lc_bind, lc_prepare; destruct (fst (prepare W ci tmp _)) as [cip|];
    [|exists 0; split; [lia|reflexivity]].
  rewrite lc_bind, lc_prepare_os_disk; destruct (fst (prepare_os_disk W tmp image_name)) as [os|];
    [|exists 0; split; [lia|reflexivity]].
  rewrite lc_bind, lc_prepare_tap; destruct (fst (prepare_tap W _)) as [[]|];
    [|exists 1; split; [lia|reflexivity]].
  rewrite lc_bind, lc_spawn; destruct (fst (spawn W h os cip _)) as [[]|];
    [|exists 2; split; [lia|reflexivity]].
  rewrite lc_bind, lc_emit; cbn [fst emit].
  rewrite lc_bind; unfold ssh_command; rewrite lc_ssh_loop.
  destruct (fst (ssh_loop W _ _ _ _ _ _ _)) as [[out|e]|];
    [| exists 2; split; [lia|reflexivity] | exists 2; split; [lia|reflexivity]].
  rewrite lc_bind, lc_emit; cbn [fst emit].
  rewrite lc_bind, lc_expect; destruct (fst (expect (w_kill W))) as [[]|];
    [|exists 3; split; [lia|reflexivity]].
  rewrite lc_bind, lc_emit; cbn [fst emit].
  rewrite lc_bind, lc_expect; destruct (fst (expect (w_wait W))) as [[]|];
    [|exists 4; split; [lia|reflexivity]].
  rewrite lc_cleanup_tap; exists 5; split; [lia|reflexivity].
Qed.

Lemma spawn_in_lc argv tr : In (EvSpawn argv) tr -> In LcSpawn (lifecycle tr).
Proof.
  intros H; unfold lifecycle; apply in_flat_map; exists (EvSpawn argv); split;
    [exact H|left; reflexivity].
Qed.

Lemma unwrap_some {A} (o : option A) a : fst (unwrap o) = Some a -> o = Some a.
Proof. destruct o; simpl; congruence. Qed.

Lemma prepare_os_disk_some W tmp image_name os :
  fst (prepare_os_disk W tmp image_name) = Some os ->
  exists home, w_home W = Some home /\ os = join tmp image_name /\
    prepare_os_disk W tmp image_name =
      (Some os, [EvIo (IoCopy (join (join home "workloads") image_name) os)]).
Proof.
  unfold prepare_os_disk, io, unwrap, emit, expect.
  destruct (w_home W) as [home|]; simpl; [|discriminate].
  destruct (w_io W _); simpl; [|discriminate].
  intros H; injection H as <-; exists home; auto.
Qed.

Lemma snd_spawn W h os ci net : snd (spawn W h os ci net) = [EvSpawn (spawn_argv h os ci net)].
Proof.
  destruct h; unfold spawn, spawn_child, emit, expect; cbn [spawn_argv];
    [destruct (w_spawn W (spawn_ch_argv os ci net))
    |destruct (w_spawn W (spawn_qemu_argv os ci net))]; reflexivity.
Qed.

Lemma lc_test_boot_tail W net (P : lc_event -> Prop) :
  P LcKill -> P LcWait -> P (LcTapDel (tap_name net)) ->
  forall x, In x (lifecycle (snd (
    emit (EvSleep 20) ;;;
    r <- ssh_command W (guest_ip net) (lit "sudo shutdown -h now") ;;
    match r with
    | Err _ => panic
    | Ok _ =>
      emit EvKill ;;; expect (w_kill W) ;;;
      emit EvWait ;;; expect (w_wait W) ;;;
      cleanup_tap W net
    end))) -> P x.
Proof.
  intros Hk Hw Hd x.
  rewrite lc_bind, lc_emit; cbn [fst emit].
  rewrite lc_bind; unfold ssh_command; rewrite lc_ssh_loop.
  destruct (fst (ssh_loop W _ _ _ _ _ _ _)) as [[out|e]|]; [|simpl; tauto|simpl; tauto].
  rewrite lc_bind, lc_emit; cbn [fst emit].
  rewrite lc_bind, lc_expect; destruct (fst (expect (w_kill W))) as [[]|];
    [|simpl; intros [H|[]]; subst x; exact Hk].
  rewrite lc_bind, lc_emit; cbn [fst emit].
  rewrite lc_bind, lc_expect; destruct (fst (expect (w_wait W))) as [[]|];
    [|simpl; intros [H|[H|[]]]; subst x; assumption].
  rewrite lc_cleanup_tap; simpl; intros [H|[H|[H|[]]]]; subst x; assumption.
Qed.

(** The VMM is only ever launched after the seed image, the OS disk and
    the tap device have all been prepared successfully, and it is launched
    on exactly what they produced: the seed image [<tmp>/cloudinit], the
    copy [<tmp>/<image>] of [<home>/workloads/<image>], and the run's own
    identity. *)
Theorem test_boot_spawn_inputs (W : World) (image_name : string) (ci : CloudInit)
  (h : HypervisorSpawn) (argv : list rstr) :
  In (EvSpawn argv) (snd (test_boot W image_name ci h)) ->
  exists tmp home, w_tempdir W = Some tmp /\ w_home W = Some home /\
    fst (prepare W ci tmp (test_boot_network W)) = Some (join tmp "cloudinit") /\
    prepare_os_disk W tmp image_name =
      (Some (join tmp image_name),
       [EvIo (IoCopy (join (join home "workloads") image_name) (join tmp image_name))]) /\
    fst (prepare_tap W (test_boot_network W)) = Some tt /\
    argv = spawn_argv h (join tmp image_name) (join tmp "cloudinit") (test_boot_network W).
Proof.
  intros H; unfold test_boot in H.
  apply in_bind in H as [H|(tmp & Ht & H)]; [destruct (w_tempdir W); destruct H|].
  apply unwrap_some in Ht.
  apply in_bind in H as [H|(cip & Hc & H)];
    [apply spawn_in_lc in H; rewrite lc_prepare in H; destruct H|].
  pose proof (prepare_result _ _ _ _ _ Hc) as Hcip; subst cip.
  apply in_bind in H as [H|(os & Ho & H)];
    [apply spawn_in_lc in H; rewrite lc_prepare_os_disk in H; destruct H|].
  destruct (prepare_os_disk_some _ _ _ _ Ho) as (home & Hh & Hos & Heq); subst os.
  apply in_bind in H as [H|([] & Hp & H)];
    [apply spawn_in_lc in H; rewrite lc_prepare_tap in H; destruct H as [H|[]]; discriminate H|].
  apply in_bind in H as [H|([] & Hs & H)].
  - rewrite snd_spawn in H; destruct H as [H|[]]; injection H as <-.
    exists tmp, home; repeat split; assumption.
  - apply spawn_in_lc in H.
    exfalso; refine (lc_test_boot_tail W _ (fun x => x <> LcSpawn) _ _ _ LcSpawn H eq_refl);
      discriminate.
Qed.

Lemma test_boot_spawn_inputs_witness :
  exists tmp home,
    w_tempdir (sample_world [] all_succeed (fun _ => ok_attempt)) = Some tmp /\
    w_home (sample_world [] all_succeed (fun _ => ok_attempt)) = Some home /\
    fst (prepare (sample_world [] all_succeed (fun _ => ok_attempt)) ClearCloudInit tmp
           (test_boot_network (sample_world [] all_succeed (fun _ => ok_attempt)))) =
      Some (join tmp "cloudinit") /\
    prepare_os_disk (sample_world [] all_succeed (fun _ => ok_attempt)) tmp CLEAR_IMAGE_NAME =
      (Some (join tmp CLEAR_IMAGE_NAME),
       [EvIo (IoCopy (join (join home "workloads") CLEAR_IMAGE_NAME) (join tmp CLEAR_IMAGE_NAME))]) /\
    fst (prepare_tap (sample_world [] all_succeed (fun _ => ok_attempt))
           (test_boot_network (sample_world [] all_succeed (fun _ => ok_attempt)))) = Some tt /\
    spawn_qemu_argv (lit "/tmp/rhfw.a1b2/clear-31311-cloudguest.img") (lit "/tmp/rhfw.a1b2/cloudinit")
      (GuestNetworkConfig_new Byte.x06 zero_mac) =
    spawn_argv spawn_qemu (join tmp CLEAR_IMAGE_NAME) (join tmp "cloudinit")
      (test_boot_network (sample_world [] all_succeed (fun _ => ok_attempt))).
Proof.
  apply (test_boot_spawn_inputs _ _ _ _ _).
  change (test_boot ?W CLEAR_IMAGE_NAME ClearCloudInit spawn_qemu) with (test_boot_qemu_clear W).
  vm_compute; repeat (solve [left; reflexivity] || right).
Defined.

Lemma local_prepare W ci tmp net e : In e (snd (prepare W ci tmp net)) -> is_remote e = false.
Proof.
  intros H; apply prepare_events in H.
  destruct e; try reflexivity; contradiction.
Qed.

Lemma local_prepare_os_disk W tmp image_name e :
  In e (snd (prepare_os_disk W tmp image_name)) -> is_remote e = false.
Proof.
  unfold prepare_os_disk, io, unwrap, emit, expect.
  destruct (w_home W); simpl; [destruct (w_io W _)|]; simpl; intros H; intuition subst; reflexivity.
Qed.

Lemma local_run_status W argv e : In e (snd (run_status_assert W argv)) -> is_remote e = false.
Proof. rewrite run_status_assert_eq; simpl; intros [<-|[]]; reflexivity. Qed.

Lemma local_prepare_tap W net e : In e (snd (prepare_tap W net)) -> is_remote e = false.
Proof.
  unfold prepare_tap; intros H.
  destruct (in_bind _ _ _ H) as [H1|(u & _ & H1)]; [exact (local_run_status _ _ _ H1)|].
  destruct (in_bind _ _ _ H1) as [H2|(u' & _ & H2)]; [exact (local_run_status _ _ _ H2)|].
  exact (local_run_status _ _ _ H2).
Qed.

Lemma local_spawn W h os ci net e : In e (snd (spawn W h os ci net)) -> is_remote e = false.
Proof. rewrite snd_spawn; intros [<-|[]]; reflexivity. Qed.

Lemma local_expect b e : In e (snd (expect b)) -> is_remote e = false.
Proof. destruct b; intros []. Qed.

(** The only remote actions of [test_boot] are SSH connections to port 22
    of the guest address of its own identity, and the command it runs
    there is [sudo shutdown -h now]. *)
Theorem test_boot_remote (W : World) (image_name : string) (ci : CloudInit)
  (h : HypervisorSpawn) (e : event) :
  In e (snd (test_boot W image_name ci h)) -> is_remote e = true ->
  e = EvConnect (guest_ip (test_boot_network W) ++ lit ":22") \/
  e = EvExec (lit "sudo shutdown -h now").
Proof.
  intros H Hr; unfold test_boot in H.
  apply in_bind in H as [H|(tmp & _ & H)]; [destruct (w_tempdir W); destruct H|].
  apply in_bind in H as [H|(cip & _ & H)]; [rewrite (local_prepare _ _ _ _ _ H) in Hr; discriminate Hr|].
  apply in_bind in H as [H|(os & _ & H)];
    [rewrite (local_prepare_os_disk _ _ _ _ H) in Hr; discriminate Hr|].
  apply in_bind in H as [H|(u & _ & H)]; [rewrite (local_prepare_tap _ _ _ H) in Hr; discriminate Hr|].
  apply in_bind in H as [H|(u' & _ & H)]; [rewrite (local_spawn _ _ _ _ _ _ H) in Hr; discriminate Hr|].
  apply in_bind in H as [H|(u'' & _ & H)]; [destruct H as [<-|[]]; discriminate Hr|].
  apply in_bind in H as [H|(r & _ & H)].
  - unfold ssh_command in H.
    destruct (ssh_loop_events W _ _ 6 0 [] e eq_refl H) as [He|[He|(n & _ & He)]]; auto.
    subst e; discriminate Hr.
  - destruct r as [out|err]; [|destruct H].
    apply in_bind in H as [H|(u1 & _ & H)]; [destruct H as [<-|[]]; discriminate Hr|].
    apply in_bind in H as [H|(u2 & _ & H)]; [rewrite (local_expect _ _ H) in Hr; discriminate Hr|].
    apply in_bind in H as [H|(u3 & _ & H)]; [destruct H as [<-|[]]; discriminate Hr|].
    apply in_bind in H as [H|(u4 & _ & H)]; [rewrite (local_expect _ _ H) in Hr; discriminate Hr|].
    unfold cleanup_tap in H; rewrite (local_run_status _ _ _ H) in Hr; discriminate Hr.
Qed.

Lemma test_boot_remote_witness :
  EvExec (lit "sudo shutdown -h now") =
    EvConnect (guest_ip (test_boot_network (sample_world [] all_succeed (fun _ => ok_attempt)))
               ++ lit ":22") \/
  EvExec (lit "sudo shutdown -h now") = EvExec (lit "sudo shutdown -h now").
Proof.
  apply (test_boot_remote (sample_world [] all_succeed (fun _ => ok_attempt))
           BIONIC_IMAGE_NAME UbuntuCloudInit spawn_ch).
  - change (test_boot ?W BIONIC_IMAGE_NAME UbuntuCloudInit spawn_ch) with (test_boot_ch_bionic W).
    vm_compute; repeat (solve [left; reflexivity] || right).
  - reflexivity.
Defined.

(** ** Time spent sleeping *)

Lemma sleep_total_app t1 t2 : sleep_total (t1 ++ t2) = sleep_total t1 + sleep_total t2.
Proof. unfold sleep_total; rewrite map_app, list_sum_app; reflexivity. Qed.

Lemma sleep_total_zero tr : (forall e, In e tr -> sleep_of e = 0) -> sleep_total tr = 0.
Proof.
  induction tr as [|e tr IH]; intros H; [reflexivity|].
  unfold sleep_total; simpl; rewrite (H e (or_introl eq_refl)).
  apply IH; intros x Hx; apply H; right; exact Hx.
Qed.

Lemma sleep_bind {A B} (m : M A) (f : A -> M B) :
  sleep_total (snd (bind m f)) =
  sleep_total (snd m) + match fst m with Some a => sleep_total (snd (f a)) | None => 0 end.
Proof.
  destruct m as [[a|] t]; simpl; [|lia].
  destruct (f a); simpl; apply sleep_total_app.
Qed.

Lemma sleep_ssh_attempt a ip command s : sleep_total (snd (ssh_attempt a ip command s)) = 0.
Proof.
  apply sleep_total_zero; intros e H.
  apply ssh_attempt_events in H as [->| ->]; reflexivity.
Qed.

Lemma sleep_ssh_loop W ip command fuel : forall counter s,
  counter + fuel = 6 -> 0 < fuel ->
  sleep_total (snd (ssh_loop W ip command 6 10 fuel counter s)) + 5 * counter * (counter + 1) <= 150.
Proof.
  induction fuel as [|fuel IH]; intros counter s Hc Hf; [lia|].
  cbn [ssh_loop]; rewrite sleep_bind, sleep_ssh_attempt.
  destruct (fst (ssh_attempt _ _ _ _)) as [[[[]|e] s']|]; [simpl; nia| |simpl; nia].
  rewrite u8_of_nat_small by lia; rewrite bind_ret_l.
  destruct (6 <=? counter + 1) eqn:E; [simpl; nia|]; apply Nat.leb_gt in E.
  rewrite u8_of_nat_small by lia; rewrite bind_ret_l.
  rewrite sleep_bind; cbn [emit fst snd].
  specialize (IH (counter + 1) s' ltac:(lia) ltac:(lia)).
  unfold sleep_total in *; cbn [map list_sum fold_right sleep_of] in *.
  nia.
Qed.

Lemma no_sleep_prepare W ci tmp net : sleep_total (snd (prepare W ci tmp net)) = 0.
Proof.
  apply sleep_total_zero; intros e H; apply prepare_events in H.
  destruct e; try reflexivity; contradiction.
Qed.

Lemma no_sleep_prepare_os_disk W tmp image_name :
  sleep_total (snd (prepare_os_disk W tmp image_name)) = 0.
Proof.
  unfold prepare_os_disk, io, unwrap, emit, expect.
  destruct (w_home W); simpl; [destruct (w_io W _)|]; reflexivity.
Qed.

Lemma no_sleep_run_status W argv : sleep_total (snd (run_status_assert W argv)) = 0.
Proof. rewrite run_status_assert_eq; reflexivity. Qed.

Lemma no_sleep_prepare_tap W net : sleep_total (snd (prepare_tap W net)) = 0.
Proof.
  unfold prepare_tap; rewrite sleep_bind, no_sleep_run_status; simpl.
  destruct (fst (run_status_assert W _)); [|reflexivity].
  rewrite sleep_bind, no_sleep_run_status; simpl.
  destruct (fst (run_status_assert W _)); [|reflexivity].
  apply no_sleep_run_status.
Qed.

Lemma no_sleep_spawn W h os ci net : sleep_total (snd (spawn W h os ci net)) = 0.
Proof. rewrite snd_spawn; reflexivity. Qed.

Lemma no_sleep_expect b : sleep_total (snd (expect b)) = 0.
Proof. destruct b; reflexivity. Qed.

(** A run of [ssh_command] sleeps at most 10 + 20 + 30 + 40 + 50 = 150
    seconds in total, and a run of [test_boot] at most 170 seconds: the
    20-second wait for the guest to boot and the SSH back-off. *)
Theorem test_boot_sleep_bound (W : World) (image_name : string) (ci : CloudInit)
  (h : HypervisorSpawn) :
  (forall ip command, sleep_total (snd (ssh_command W ip command)) <= 150) /\
  sleep_total (snd (test_boot W image_name ci h)) <= 170.
Proof.
  assert (Hssh : forall ip command, sleep_total (snd (ssh_command W ip command)) <= 150).
  { intros ip command; pose proof (sleep_ssh_loop W ip command 6 0 [] eq_refl ltac:(lia)).
    unfold ssh_command, DEFAULT_SSH_RETRIES, DEFAULT_SSH_TIMEOUT; lia. }
  split; [exact Hssh|].
  unfold test_boot.
  rewrite sleep_bind; destruct (fst (unwrap (w_tempdir W))) as [tmp|];
    [|destruct (w_tempdir W); simpl; lia].
  replace (sleep_total (snd (unwrap (w_tempdir W)))) with 0 by (destruct (w_tempdir W); reflexivity).
  rewrite sleep_bind, no_sleep_prepare; destruct (fst (prepare W ci tmp _)) as [cip|]; [|lia].
  rewrite sleep_bind, no_sleep_prepare_os_disk;
    destruct (fst (prepare_os_disk W tmp image_name)) as [os|]; [|lia].
  rewrite sleep_bind, no_sleep_prepare_tap; destruct (fst (prepare_tap W _)) as [[]|]; [|lia].
  rewrite sleep_bind, no_sleep_spawn; destruct (fst (spawn W h os cip _)) as [[]|]; [|lia].
  rewrite sleep_bind; cbn [fst emit]; unfold sleep_total at 1; simpl list_sum.
  rewrite sleep_bind.
  pose proof (Hssh (guest_ip (test_boot_network W)) (lit "sudo shutdown -h now")) as Hs.
  remember (sleep_total (snd (ssh_command W (guest_ip (test_boot_network W))
                                (lit "sudo shutdown -h now")))) as z eqn:Ez; clear Ez.
  destruct (fst (ssh_command W _ _)) as [[out|e]|];
    [|replace (sleep_total (snd (@panic unit))) with 0 by reflexivity; lia|lia].
  rewrite sleep_bind; cbn [fst emit].
  rewrite sleep_bind, no_sleep_expect; destruct (fst (expect (w_kill W))) as [[]|];
    [|simpl; unfold sleep_total; simpl; lia].
  rewrite sleep_bind; cbn [fst emit].
  rewrite sleep_bind, no_sleep_expect; destruct (fst (expect (w_wait W))) as [[]|];
    [|simpl; unfold sleep_total; simpl; lia].
  unfold cleanup_tap; rewrite no_sleep_run_status.
  unfold sleep_total; simpl; lia.
Qed.

Example test_boot_sleep_refused :
  sleep_total (snd (test_boot_ch_focal (sample_world [] all_succeed (fun _ => refused_attempt)))) = 170.
Proof. vm_compute; reflexivity. Qed.
